(** * Gallump: order validation, risk gate, bracket status, order store
    reconciliation, connection pool and broker health counters.

  A shallow embedding of the Python sources

  - [gallump/core/risk.py]            (module [Risk])
  - [gallump/core/validators.py]      (module [Validators])
  - [gallump_next/execution/order_validator.py] (module [OrderValidator])
  - [gallump/core/types.py]           (module [Types])
  - [gallump/core/storage.py]         (module [Storage])
  - [gallump_next/core/connection_pool.py] (module [ConnectionPool])
  - [gallump/core/broker.py]          (module [Broker])

  Conventions.  Python [float] and [Decimal] quantities are idealised as
  exact rationals ([Q]); Python integers are [Z]; [str] is [string];
  [dict]s are finite maps ([gmap]); exceptions are results of a sum type.
  Division is the one arithmetic operation that can raise, and it is
  modelled as such ([Py.div]). *)

From Stdlib Require Import ZArith QArith Qcanon Qround Lia List String Ascii Bool
  DecimalString.
From stdpp Require Import gmap strings list.

Open Scope Q_scope.

(** ** Python primitives shared by the modules *)

Module Py.

(** Truthiness of a number: [0] (and [0.0]) are falsy. *)
Definition truthy (x : Q) : bool := negb (Qeq_bool x 0).

(** [x or d] on numbers. *)
Definition or_else (x d : Q) : Q := if truthy x then x else d.

(** [a / b]: [None] stands for [ZeroDivisionError]. *)
Definition div (a b : Q) : option Q :=
  if Qeq_bool b 0 then None else Some (a / b).

(** [a > b] and [a < b] as booleans. *)
Definition gtb (a b : Q) : bool := negb (Qle_bool a b).
Definition ltb (a b : Q) : bool := negb (Qle_bool b a).

(** [int(x)] on a finite float: truncation towards zero. *)
Definition int (x : Q) : Z := Z.quot (Qnum x) (Zpos (Qden x)).

(** [min(a, b)]: Python returns [a] unless [b < a]. *)
Definition min (a b : Q) : Q := if ltb b a then b else a.

End Py.

(** ** gallump/core/risk.py *)

Module Risk.

(** [core.types.Position] *)
Record Position := {
  symbol : string;
  position : Q;
  marketPrice : Q;
  marketValue : Q;
  averageCost : Q;
  unrealizedPnL : Q;
  realizedPnL : Q;
  contractId : Z
}.

(** [core.types.Portfolio] *)
Record Portfolio := {
  total_value : Q;
  positions : list Position
}.

(** [core.types.Trade] *)
Record Trade := {
  asset_type : string;
  price : Q;
  quantity : Q
}.

(** The two warnings [evaluate] can append.  The source builds them with
    f-strings; each constructor keeps the two values the f-string
    interpolates (the text and the number formatting are not modelled). *)
Inductive warning :=
| PositionTooLarge (position_pct limit : Q)
| TooManyPositions (count : nat) (limit : Z).

(** [core.types.RiskResult] *)
Record RiskResult := {
  approved : bool;
  position_size : Q;
  stop_loss : Q;
  max_loss : Q;
  warnings : list warning
}.

(** [self.config] *)
Record Config := {
  max_position_pct : Q;
  max_loss_pct : Q;
  max_positions : Z;
  option_stop_pct : Q;
  stock_stop_pct : Q
}.

(** [RiskManager.DEFAULTS] *)
Definition DEFAULTS : Config := {|
  max_position_pct := 1 # 10;
  max_loss_pct := 15 # 100;
  max_positions := 10;
  option_stop_pct := 3 # 10;
  stock_stop_pct := 15 # 100
|}.

(** First check of [evaluate]: per-position size. *)
Definition size_violated (cfg : Config) (position_pct : Q) : bool :=
  Py.gtb position_pct (max_position_pct cfg).

(** Second check of [evaluate]: position count limit. *)
Definition count_violated (cfg : Config) (portfolio : Portfolio) : bool :=
  (max_positions cfg <=? Z.of_nat (length (positions portfolio)))%Z.

(** [RiskManager.evaluate].  [None] is the [ZeroDivisionError] the
    division could raise. *)
Definition evaluate (cfg : Config) (trade : Trade) (portfolio : Portfolio)
  : option RiskResult :=
  let position_value := quantity trade * price trade in
  match Py.div position_value (Py.or_else (total_value portfolio) 1) with
  | None => None
  | Some position_pct =>
    let warnings0 : list warning := [] in
    let approved0 := true in
    (* Check per-position size *)
    let '(warnings1, approved1) :=
      if size_violated cfg position_pct
      then (warnings0 ++ [PositionTooLarge position_pct (max_position_pct cfg)], false)
      else (warnings0, approved0) in
    (* Position count limit *)
    let '(warnings2, approved2) :=
      if count_violated cfg portfolio
      then (warnings1 ++ [TooManyPositions (length (positions portfolio))
                                           (max_positions cfg)], false)
      else (warnings1, approved1) in
    (* Calculate stop loss *)
    let stop :=
      if String.eqb (asset_type trade) "OPTION"
      then price trade * (1 - option_stop_pct cfg)
      else price trade * (1 - stock_stop_pct cfg) in
    let mloss := (price trade - stop) * quantity trade in
    Some {| approved := approved2;
            position_size := quantity trade;
            stop_loss := stop;
            max_loss := mloss;
            warnings := warnings2 |}
  end.




End Risk.

(** ** gallump/core/types.py *)

Module Types.

(** [datetime] and [date] values, as seconds since the epoch. *)
Definition datetime := Z.

(** [PendingOrder].  The optional price fields are canonical rationals so
    that the dataclass equality ([==], field by field) is Leibniz equality. *)
Record PendingOrder := {
  order_id : string;
  symbol : string;
  action : string;
  quantity : Z;
  order_type : string;
  limit_price : option Qc;
  stop_price : option Qc;
  trail_amount : option Qc;
  trail_percent : option Qc;
  offset_amount : option Qc;
  midpoint_offset : option Qc;
  time_in_force : string;
  good_after_time : option datetime;
  good_till_date : option datetime;
  status : string;
  filled_quantity : Z;
  remaining_quantity : Z;
  avg_fill_price : option Qc;
  parent_id : option string;
  oca_group : option string;
  submitted_at : datetime;
  strategy_id : option Z;
  notes : option string;
  asset_type : string;
  option_type : option string;
  strike : option Qc;
  expiry : option string
}.

(** The dataclass-generated [__eq__]. *)
#[global] Instance PendingOrder_eq_dec : EqDecision PendingOrder.
Proof. solve_decision. Defined.

(** [PendingOrder.is_working_order] *)
Definition is_working_order (o : PendingOrder) : bool :=
  bool_decide (status o ∈ ["PendingSubmit"; "PreSubmitted"; "Submitted"]).







End Types.

(** ** gallump/core/storage.py: the [pending_orders] table *)

Module Storage.
Import Types.

(** One row of [pending_orders].  [row_id] is the column
    [id INTEGER PRIMARY KEY AUTOINCREMENT], [last_updated] the column of
    that name, and [columns] holds the twenty-seven columns that mirror
    [PendingOrder].  The column [order_id] is [UNIQUE NOT NULL]: the table
    is a finite map keyed by it. *)
Record Row := {
  row_id : Z;
  columns : PendingOrder;
  last_updated : datetime
}.

(** The table, with the counter SQLite keeps for [AUTOINCREMENT]
    (the largest [id] ever handed out). *)
Record Store := {
  rows : gmap string Row;
  seq : Z
}.

(** [status IN ('PendingSubmit', 'PreSubmitted', 'Submitted', 'PendingCancel')] *)
Definition open_statuses : list string :=
  ["PendingSubmit"; "PreSubmitted"; "Submitted"; "PendingCancel"].

Definition is_open (r : Row) : bool :=
  bool_decide (status (columns r) ∈ open_statuses).

(** [status NOT IN ('Filled', 'Cancelled')] *)
Definition not_terminal (r : Row) : bool :=
  negb (bool_decide (status (columns r) ∈ ["Filled"; "Cancelled"])).

(** [SELECT order_id FROM pending_orders WHERE status IN (...)], as a set. *)
Definition db_order_ids (s : Store) : gset string :=
  dom (filter (fun kv => is_open kv.2 = true) (rows s)).

(** [set(order.order_id for order in live_orders)] *)
Definition live_order_ids (live_orders : list PendingOrder) : gset string :=
  list_to_set (order_id <$> live_orders).

Definition set_status (st : string) (o : PendingOrder) : PendingOrder :=
  {| order_id := order_id o; symbol := symbol o; action := action o;
     quantity := quantity o; order_type := order_type o;
     limit_price := limit_price o; stop_price := stop_price o;
     trail_amount := trail_amount o; trail_percent := trail_percent o;
     offset_amount := offset_amount o; midpoint_offset := midpoint_offset o;
     time_in_force := time_in_force o; good_after_time := good_after_time o;
     good_till_date := good_till_date o; status := st;
     filled_quantity := filled_quantity o;
     remaining_quantity := remaining_quantity o;
     avg_fill_price := avg_fill_price o; parent_id := parent_id o;
     oca_group := oca_group o; submitted_at := submitted_at o;
     strategy_id := strategy_id o; notes := notes o;
     asset_type := asset_type o; option_type := option_type o;
     strike := strike o; expiry := expiry o |}.

(** [UPDATE pending_orders SET status = 'Filled',
     last_updated = CURRENT_TIMESTAMP
     WHERE order_id = ? AND status NOT IN ('Filled', 'Cancelled')] *)
Definition mark_filled (now : datetime) (s : Store) (oid : string) : Store :=
  match rows s !! oid with
  | Some r =>
    if not_terminal r
    then {| rows := <[oid := {| row_id := row_id r;
                                columns := set_status "Filled" (columns r);
                                last_updated := now |}]> (rows s);
            seq := seq s |}
    else s
  | None => s
  end.

(** [INSERT OR REPLACE INTO pending_orders (...) VALUES (...)]: a row with
    the same [order_id] is deleted, and the new row takes the next
    [AUTOINCREMENT] id. *)
Definition insert_or_replace (now : datetime) (s : Store) (order : PendingOrder)
  : Store :=
  {| rows := <[order_id order := {| row_id := seq s + 1;
                                    columns := order;
                                    last_updated := now |}]> (rows s);
     seq := seq s + 1 |}.

(** [Storage.sync_pending_orders].  [now] is what [CURRENT_TIMESTAMP]
    reads during the pass. *)
Definition sync_pending_orders (now : datetime) (live_orders : list PendingOrder)
           (s : Store) : Store :=
  (* Mark orders that are no longer live as filled *)
  let missing_ids := db_order_ids s ∖ live_order_ids live_orders in
  let s := foldl (mark_filled now) s (elements missing_ids) in
  (* Add or update live orders *)
  foldl (insert_or_replace now) s live_orders.

(** The last order of a snapshot that carries the id [oid]. *)
Fixpoint find_last (oid : string) (live_orders : list PendingOrder)
  : option PendingOrder :=
  match live_orders with
  | [] => None
  | o :: rest =>
    match find_last oid rest with
    | Some o' => Some o'
    | None => if bool_decide (order_id o = oid) then Some o else None
    end
  end.

(** What the implicit-fill [UPDATE] makes of a row. *)
Definition filled_row (now : datetime) (r : Row) : Row :=
  if not_terminal r
  then {| row_id := row_id r;
          columns := set_status "Filled" (columns r);
          last_updated := now |}
  else r.

(** What a pass makes of a row whose order id is absent from the
    snapshot: an open row takes the implicit-fill [UPDATE], any other row
    is not selected. *)
Definition absent_row (now : datetime) (r : Row) : Row :=
  if is_open r then filled_row now r else r.

(** [Storage.get_pending_orders()] with no filter, as the map from order id
    to the [PendingOrder] rebuilt from the row: the contents of the table
    without the surrogate [id] and the [last_updated] stamp. *)
Definition get_pending_orders (s : Store) : gmap string PendingOrder :=
  columns <$> rows s.

(** [Storage.save_pending_order]: a plain [INSERT].  The [UNIQUE]
    constraint on [order_id] makes it raise [sqlite3.IntegrityError] when
    the id is taken; otherwise it returns [lastrowid]. *)
Inductive save_result :=
| Saved (lastrowid : Z)
| IntegrityError.

Definition save_pending_order (now : datetime) (order : PendingOrder)
           (s : Store) : save_result * Store :=
  match rows s !! order_id order with
  | Some _ => (IntegrityError, s)
  | None =>
    (Saved (seq s + 1),
     {| rows := <[order_id order := {| row_id := seq s + 1;
                                       columns := order;
                                       last_updated := now |}]> (rows s);
        seq := seq s + 1 |})
  end.

(** [Storage.delete_pending_order] *)
Definition delete_pending_order (oid : string) (s : Store) : Store :=
  {| rows := delete oid (rows s); seq := seq s |}.

Definition set_fill (filled : Z) (avg : Qc) (o : PendingOrder) : PendingOrder :=
  {| order_id := order_id o; symbol := symbol o; action := action o;
     quantity := quantity o; order_type := order_type o;
     limit_price := limit_price o; stop_price := stop_price o;
     trail_amount := trail_amount o; trail_percent := trail_percent o;
     offset_amount := offset_amount o; midpoint_offset := midpoint_offset o;
     time_in_force := time_in_force o; good_after_time := good_after_time o;
     good_till_date := good_till_date o; status := status o;
     filled_quantity := filled;
     remaining_quantity := remaining_quantity o;
     avg_fill_price := Some avg; parent_id := parent_id o;
     oca_group := oca_group o; submitted_at := submitted_at o;
     strategy_id := strategy_id o; notes := notes o;
     asset_type := asset_type o; option_type := option_type o;
     strike := strike o; expiry := expiry o |}.

(** [Storage.update_order_status]: the fill columns are written only when
    both [filled_quantity] and [avg_fill_price] are given. *)
Definition update_order_status (now : datetime) (oid : string) (st : string)
           (filled : option Z) (avg : option Qc) (s : Store) : Store :=
  match rows s !! oid with
  | Some r =>
    let c := match filled, avg with
             | Some f, Some a => set_fill f a (set_status st (columns r))
             | _, _ => set_status st (columns r)
             end in
    {| rows := <[oid := {| row_id := row_id r; columns := c;
                           last_updated := now |}]> (rows s);
       seq := seq s |}
  | None => s
  end.

(** The operations on [pending_orders] that write. *)
Inductive operation :=
| Sync (now : datetime) (live_orders : list PendingOrder)
| Save (now : datetime) (order : PendingOrder)
| Delete (oid : string)
| UpdateStatus (now : datetime) (oid : string) (st : string)
               (filled : option Z) (avg : option Qc).

Definition run (op : operation) (s : Store) : Store :=
  match op with
  | Sync now live_orders => sync_pending_orders now live_orders s
  | Save now order => snd (save_pending_order now order s)
  | Delete oid => delete_pending_order oid s
  | UpdateStatus now oid st filled avg =>
    update_order_status now oid st filled avg s
  end.

(** The integrity of the table: the [AUTOINCREMENT] counter is not
    negative, the key of a row is its [order_id] column, row ids are
    positive and not above the counter, and no two rows share a row id. *)
Definition store_wf (s : Store) : Prop :=
  (0 <= seq s)%Z /\
  (forall k r, rows s !! k = Some r ->
               order_id (columns r) = k /\ (0 < row_id r <= seq s)%Z) /\
  (forall k1 k2 r1 r2, rows s !! k1 = Some r1 -> rows s !! k2 = Some r2 ->
                       row_id r1 = row_id r2 -> k1 = k2).

(** The table [_init_schema] creates. *)
Definition empty_store : Store := {| rows := ∅; seq := 0 |}.


End Storage.

(** ** gallump/core/validators.py *)

Module Validators.

(** The values an order dictionary holds. *)
Inductive value :=
| VNone
| VInt (n : Z)
| VFloat (x : Q)
| VStr (s : string).

(** Exceptions [validate_order] can leave with. *)
Inductive exn :=
| ValueError (msg : string)
| AttributeError
| KeyError (key : string).

Inductive result (A : Type) :=
| Ok (a : A)
| Raise (e : exn).
Arguments Ok {A} a.
Arguments Raise {A} e.

#[global] Instance result_bind : MBind result := fun A B k m =>
  match m with
  | Ok a => k a
  | Raise e => Raise e
  end.

(** What the interpreter does on text, left abstract: [str(x)] of a float,
    [int(s)] and [float(s)] of a string ([None] when they raise
    [ValueError]), and whether [datetime.strptime(s, '%Y-%m-%d')]
    succeeds. *)
Class Runtime := {
  repr_float : Q -> string;
  int_of_str : string -> option Z;
  float_of_str : string -> option Q;
  strptime_ymd : string -> bool
}.

Section WithRuntime.
Context `{Runtime}.

(** [str(v)] *)
Definition py_str (v : value) : string :=
  match v with
  | VNone => "None"
  | VInt n => NilZero.string_of_int (Z.to_int n)
  | VFloat x => repr_float x
  | VStr s => s
  end.

(** [c.upper()] on one ASCII character. *)
Definition upper_ascii (c : ascii) : ascii :=
  let n := nat_of_ascii c in
  if (97 <=? n)%nat && (n <=? 122)%nat then ascii_of_nat (n - 32) else c.

(** [s.upper()] *)
Fixpoint py_upper (s : string) : string :=
  match s with
  | EmptyString => EmptyString
  | String c s' => String (upper_ascii c) (py_upper s')
  end.

(** [int(v)]; [None] for [ValueError] or [TypeError]. *)
Definition py_int (v : value) : option Z :=
  match v with
  | VNone => None
  | VInt n => Some n
  | VFloat x => Some (Py.int x)
  | VStr s => int_of_str s
  end.

(** [float(v)]; [None] for [ValueError] or [TypeError]. *)
Definition py_float (v : value) : option Q :=
  match v with
  | VNone => None
  | VInt n => Some (inject_Z n)
  | VFloat x => Some x
  | VStr s => float_of_str s
  end.

Definition dict := gmap string value.

(** [k in d] *)
Definition contains (d : gmap string value) (k : string) : bool :=
  bool_decide (is_Some (d !! k)).

(** [k not in d or d[k] is None] *)
Definition absent (d : gmap string value) (k : string) : bool :=
  match d !! k with
  | None | Some VNone => true
  | Some _ => false
  end.

(** [d[k]] *)
Definition getitem (d : gmap string value) (k : string) : result value :=
  match d !! k with
  | Some v => Ok v
  | None => Raise (KeyError k)
  end.

(** [d.get(k, default).upper()]: only a [str] has [upper]. *)
Definition get_upper (d : gmap string value) (k default : string)
  : result string :=
  match d !! k with
  | None => Ok (py_upper default)
  | Some (VStr s) => Ok (py_upper s)
  | Some _ => Raise AttributeError
  end.

(** The loop over [required_fields]. *)
Fixpoint check_required (fields : list string) (order : gmap string value)
  : result unit :=
  match fields with
  | [] => Ok tt
  | field :: rest =>
    if absent order field
    then Raise (ValueError ("Order missing required field: " +:+ field))
    else check_required rest order
  end.

(** The pattern
    [try: x = float(order[k]); if not ok(x): raise ValueError(..)
     except (ValueError, TypeError): raise ValueError(f"Invalid ..: {order[k]}")] *)
Definition checked_float (order : gmap string value) (k : string)
           (ok : Q -> bool) (label : string) : result Q :=
  v ← getitem order k;
  match py_float v with
  | Some x => if ok x then Ok x
              else Raise (ValueError (label +:+ py_str v))
  | None => Raise (ValueError (label +:+ py_str v))
  end.

Definition positive (x : Q) : bool := negb (Qle_bool x 0).

(** [order_type_map] *)
Definition order_type_map (t : string) : string :=
  if String.eqb t "MARKET" then "MKT"
  else if String.eqb t "LIMIT" then "LMT"
  else if String.eqb t "STOP" then "STP"
  else if String.eqb t "STOP_LIMIT" then "STP LMT"
  else if String.eqb t "TRAILING_STOP" then "TRAIL"
  else t.

Definition mem (x : string) (l : list string) : bool := bool_decide (x ∈ l).

(** The block "Add limit price if LIMIT or STOP_LIMIT order". *)
Definition add_limit_price (order normalized : gmap string value)
           (order_type : string) : result (gmap string value) :=
  if mem order_type ["LMT"; "STP LMT"] then
    if absent order "limit_price"
    then Raise (ValueError (order_type +:+ " order requires limit_price"))
    else x ← checked_float order "limit_price" positive "Invalid limit_price: ";
         Ok (<["limit_price" := VFloat x]> normalized)
  else Ok normalized.

(** The block "Add stop price if STOP or STOP_LIMIT order". *)
Definition add_stop_price (order normalized : gmap string value)
           (order_type : string) : result (gmap string value) :=
  if mem order_type ["STP"; "STP LMT"] then
    if absent order "stop_price"
    then Raise (ValueError (order_type +:+ " order requires stop_price"))
    else x ← checked_float order "stop_price" positive "Invalid stop_price: ";
         Ok (<["stop_price" := VFloat x]> normalized)
  else Ok normalized.

(** The block "Add trailing stop parameters if TRAIL order". *)
Definition add_trail (order normalized : gmap string value)
           (order_type : string) : result (gmap string value) :=
  if String.eqb order_type "TRAIL" then
    let has_percent := negb (absent order "trail_percent") in
    let has_amount := negb (absent order "trail_amount") in
    if negb has_percent && negb has_amount
    then Raise (ValueError "TRAIL order requires either trail_percent or trail_amount")
    else
      normalized ←
        (if has_percent then
           x ← checked_float order "trail_percent"
                  (fun x => negb (Qle_bool x 0 || Py.gtb x 100))
                  "Invalid trail_percent: ";
           Ok (<["trail_percent" := VFloat x]> normalized)
         else Ok normalized);
      (if has_amount then
         x ← checked_float order "trail_amount" positive
                "Invalid trail_amount: ";
         Ok (<["trail_amount" := VFloat x]> normalized)
       else Ok normalized)
  else Ok normalized.

(** The loop over [option_fields]. *)
Fixpoint check_option_fields (fields : list string) (order : gmap string value)
  : result unit :=
  match fields with
  | [] => Ok tt
  | field :: rest =>
    if absent order field then
      if String.eqb field "option_type" && contains order "right"
      then check_option_fields rest order
      else Raise (ValueError ("Option order missing required field: " +:+ field))
    else check_option_fields rest order
  end.

(** "Normalize option type / right". *)
Definition normalize_option_type (order : gmap string value)
  : result (option string) :=
  if contains order "option_type" then
    v ← getitem order "option_type";
    let opt := py_upper (py_str v) in
    if String.eqb opt "CALL" then Ok (Some "C")
    else if String.eqb opt "PUT" then Ok (Some "P")
    else if mem opt ["C"; "P"] then Ok (Some opt)
    else Raise (ValueError ("Invalid option_type: " +:+ opt))
  else if contains order "right" then
    v ← getitem order "right";
    let right := py_upper (py_str v) in
    if mem right ["C"; "P"] then Ok (Some right)
    else if String.eqb right "CALL" then Ok (Some "C")
    else if String.eqb right "PUT" then Ok (Some "P")
    else Raise (ValueError ("Invalid right: " +:+ right))
  else Ok None.

(** The block "Validate options-specific fields". *)
Definition add_option_fields (order normalized : gmap string value)
           (asset_type : string) : result (gmap string value) :=
  if String.eqb asset_type "OPTION" then
    check_option_fields ["expiry"; "strike"; "option_type"] order;;
    e ← getitem order "expiry";
    let expiry := py_str e in
    normalized ←
      (if strptime_ymd expiry then Ok (<["expiry" := VStr expiry]> normalized)
       else Raise (ValueError ("Invalid expiry date format: " +:+ expiry
                               +:+ ". Use YYYY-MM-DD")));
    strike ← checked_float order "strike" positive "Invalid strike price: ";
    let normalized := <["strike" := VFloat strike]> normalized in
    option_type ← normalize_option_type order;
    match option_type with
    | None | Some EmptyString =>
      Raise (ValueError "Option order must specify option_type (CALL/PUT) or right (C/P)")
    | Some t =>
      Ok (<["right" := VStr t]> (<["option_type" := VStr t]> normalized))
    end
  else Ok normalized.

(** The loop over [optional_fields]. *)
Fixpoint add_optional (fields : list string) (order normalized : gmap string value)
  : gmap string value :=
  match fields with
  | [] => normalized
  | field :: rest =>
    match order !! field with
    | None | Some VNone => add_optional rest order normalized
    | Some v => add_optional rest order (<[field := v]> normalized)
    end
  end.

(** [validate_order] *)
Definition validate_order (order : gmap string value)
  : result (gmap string value) :=
  (* Required fields for all orders *)
  check_required ["symbol"; "action"; "quantity"] order;;
  (* Normalize and validate action *)
  a ← getitem order "action";
  let action := py_upper (py_str a) in
  if negb (mem action ["BUY"; "SELL"])
  then Raise (ValueError ("Invalid action: " +:+ action +:+ ". Must be BUY or SELL"))
  else
  (* Validate quantity *)
  q ← getitem order "quantity";
  quantity ←
    match py_int q with
    | Some n => if (n <=? 0)%Z
                then Raise (ValueError ("Invalid quantity: " +:+ py_str q))
                else Ok n
    | None => Raise (ValueError ("Invalid quantity: " +:+ py_str q))
    end;
  (* Determine asset type *)
  asset_type ← get_upper order "asset_type" "STOCK";
  if negb (mem asset_type ["STOCK"; "OPTION"])
  then Raise (ValueError ("Invalid asset_type: " +:+ asset_type))
  else
  (* Build normalized order *)
  sym ← getitem order "symbol";
  order_type ← get_upper order "order_type" "MARKET";
  time_in_force ← get_upper order "time_in_force" "DAY";
  (* Normalize order type aliases *)
  let order_type := order_type_map order_type in
  let normalized : gmap string value :=
    <["order_type" := VStr order_type]>
      (list_to_map [("symbol", VStr (py_upper (py_str sym)));
                    ("action", VStr action);
                    ("quantity", VInt quantity);
                    ("asset_type", VStr asset_type);
                    ("order_type", VStr order_type);
                    ("time_in_force", VStr time_in_force)]) in
  if negb (mem order_type ["MKT"; "LMT"; "STP"; "STP LMT"; "TRAIL"])
  then Raise (ValueError ("Invalid order_type: " +:+ order_type))
  else
  normalized ← add_limit_price order normalized order_type;
  normalized ← add_stop_price order normalized order_type;
  normalized ← add_trail order normalized order_type;
  normalized ← add_option_fields order normalized asset_type;
  Ok (add_optional ["strategy_name"; "leg_group_id"; "notes"] order normalized).

(** [if o is Some x: d[k] = x] *)
Definition ins_opt (k : string) (o : option Q) (d : gmap string value)
  : gmap string value :=
  match o with
  | Some x => <[k := VFloat x]> d
  | None => d
  end.

(** The dictionary [validate_order] starts its result from. *)
Definition base_order (symbol action : string) (quantity : Z)
           (asset_type order_type time_in_force : string)
  : gmap string value :=
  <["order_type" := VStr order_type]>
    (list_to_map [("symbol", VStr symbol);
                  ("action", VStr action);
                  ("quantity", VInt quantity);
                  ("asset_type", VStr asset_type);
                  ("order_type", VStr order_type);
                  ("time_in_force", VStr time_in_force)]).

(** Whether [validate_order] returns (validation succeeds) or raises. *)
Definition succeeds {A} (r : result A) : bool :=
  match r with Ok _ => true | Raise _ => false end.

End WithRuntime.

End Validators.

(** ** gallump_next/execution/order_validator.py *)

Module OrderValidator.

(** [gallump_next.core.types] *)
Inductive OrderAction := BUY | SELL.
Inductive OrderType := MARKET | LIMIT | STOP | STOP_LIMIT | TRAILING_STOP.
Inductive TimeInForce := DAY | GTC | IOC | FOK.
Inductive AssetType := STOCK | OPTION | FUTURE | FOREX | CRYPTO.

#[global] Instance OrderAction_eq_dec : EqDecision OrderAction.
Proof. solve_decision. Defined.
#[global] Instance OrderType_eq_dec : EqDecision OrderType.
Proof. solve_decision. Defined.

(** [Order]; [Decimal] fields are rationals. *)
Record Order := {
  symbol : string;
  action : OrderAction;
  quantity : Q;
  order_type : OrderType;
  limit_price : option Q;
  stop_price : option Q;
  trail_amount : option Q;
  trail_percent : option Q;
  time_in_force : TimeInForce;
  asset_type : AssetType
}.

(** Comparing [None] with a [Decimal] raises [TypeError]. *)
Inductive result (A : Type) :=
| Ok (a : A)
| TypeError.
Arguments Ok {A} a.
Arguments TypeError {A}.

(** Truthiness of an [Optional[Decimal]]: [None] and [0] are falsy. *)
Definition truthy (x : option Q) : bool :=
  match x with
  | Some q => Py.truthy q
  | None => false
  end.

(** [x <= 0], evaluated only behind a truthiness test. *)
Definition nonpositive (x : option Q) : bool :=
  match x with
  | Some q => Qle_bool q 0
  | None => false
  end.

(** [x > bound] *)
Definition exceeds (x : option Q) (bound : Q) : result bool :=
  match x with
  | Some q => Ok (Py.gtb q bound)
  | None => TypeError
  end.

(** [if c: errors.append(msg)] *)
Definition append_if (c : bool) (msg : string) (errors : list string)
  : list string :=
  if c then errors ++ [msg] else errors.

Definition show_action (a : OrderAction) : string :=
  match a with BUY => "OrderAction.BUY" | SELL => "OrderAction.SELL" end.

(** "Check limit price for limit orders" *)
Definition check_limit (order : Order) (errors : list string)
  : result (list string) :=
  if bool_decide (order_type order = LIMIT) then
    let errors :=
      append_if (negb (truthy (limit_price order)) || nonpositive (limit_price order))
                "Limit orders require valid limit price" errors in
    match exceeds (limit_price order) 100000 with
    | Ok c => Ok (append_if c "Limit price exceeds maximum (100,000)" errors)
    | TypeError => TypeError
    end
  else Ok errors.

(** "Check stop price for stop orders" *)
Definition check_stop (order : Order) (errors : list string)
  : result (list string) :=
  if bool_decide (order_type order ∈ [STOP; STOP_LIMIT]) then
    let errors :=
      append_if (negb (truthy (stop_price order)) || nonpositive (stop_price order))
                "Stop orders require valid stop price" errors in
    match exceeds (stop_price order) 100000 with
    | Ok c => Ok (append_if c "Stop price exceeds maximum (100,000)" errors)
    | TypeError => TypeError
    end
  else Ok errors.

(** "Check stop limit orders have both prices" *)
Definition check_stop_limit (order : Order) (errors : list string)
  : list string :=
  if bool_decide (order_type order = STOP_LIMIT) then
    append_if (negb (truthy (limit_price order)) || nonpositive (limit_price order))
              "Stop limit orders require valid limit price" errors
  else errors.

(** "Check trailing stop" *)
Definition check_trailing (order : Order) (errors : list string)
  : list string :=
  if bool_decide (order_type order = TRAILING_STOP) then
    let errors :=
      append_if (negb (truthy (trail_amount order)) && negb (truthy (trail_percent order)))
                "Trailing stop requires amount or percent" errors in
    let errors :=
      append_if (truthy (trail_amount order) && truthy (trail_percent order))
                "Trailing stop cannot have both amount and percent" errors in
    let errors :=
      match trail_amount order with
      | Some a =>
        if Py.truthy a then
          append_if (Py.gtb a 1000) "Trail amount exceeds maximum (1000)"
            (append_if (Qle_bool a 0) "Trail amount must be positive" errors)
        else errors
      | None => errors
      end in
    match trail_percent order with
    | Some p =>
      if Py.truthy p then
        append_if (Py.gtb p 50) "Trail percent exceeds maximum (50%)"
          (append_if (Qle_bool p 0) "Trail percent must be positive" errors)
      else errors
    | None => errors
    end
  else errors.

(** "Market orders should not have prices" *)
Definition check_market (order : Order) (errors : list string)
  : list string :=
  if bool_decide (order_type order = MARKET) then
    append_if (truthy (stop_price order)) "Market orders should not have stop price"
      (append_if (truthy (limit_price order))
                 "Market orders should not have limit price" errors)
  else errors.

(** [OrderValidator.validate] *)
Definition validate (order : Order) : result (bool * list string) :=
  let errors : list string := [] in
  (* Check quantity *)
  let errors := append_if (Qle_bool (quantity order) 0)
                          "Quantity must be positive" errors in
  let errors := append_if (Py.gtb (quantity order) 100000)
                          "Quantity exceeds maximum allowed (100,000)" errors in
  (* Check symbol *)
  let errors := append_if (String.length (symbol order) =? 0)%nat
                          "Symbol is required" errors in
  let errors := append_if (10 <? String.length (symbol order))%nat
                          "Symbol is too long (max 10 characters)" errors in
  (* Check action *)
  let errors := append_if (negb (bool_decide (action order ∈ [BUY; SELL])))
                          ("Invalid action: " +:+ show_action (action order))
                          errors in
  match check_limit order errors with
  | TypeError => TypeError
  | Ok errors =>
    match check_stop order errors with
    | TypeError => TypeError
    | Ok errors =>
      let errors := check_stop_limit order errors in
      let errors := check_trailing order errors in
      let errors := check_market order errors in
      Ok ((length errors =? 0)%nat, errors)
    end
  end.

(** Validation succeeds: [validate] returns [(True, [])]. *)
Definition valid (order : Order) : bool :=
  match validate order with
  | Ok (ok, _) => ok
  | TypeError => false
  end.




(** [if not valid: errors.extend([f"{label}: {e}" for e in order_errors])] *)
Definition extend_unless (ok : bool) (label : string)
           (order_errors errors : list string) : list string :=
  if ok then errors
  else errors ++ List.map (fun e => label +:+ ": " +:+ e) order_errors.

(** [x <= y] and [x >= y] on two [Optional[Decimal]]. *)
Definition le_opt (x y : option Q) : result bool :=
  match x, y with
  | Some a, Some b => Ok (Qle_bool a b)
  | _, _ => TypeError
  end.

(** The two price-relationship blocks of [validate_bracket_order];
    [buy] tells which one. *)
Definition check_bracket_prices (buy : bool) (entry target stop : Order)
           (errors : list string) : result (list string) :=
  if bool_decide (action entry = (if buy then BUY else SELL))
     && bool_decide (order_type entry = LIMIT) then
    match
      (if bool_decide (order_type target = LIMIT) && truthy (limit_price target)
       then if buy
            then le_opt (limit_price target) (limit_price entry)
            else le_opt (limit_price entry) (limit_price target)
       else Ok false)
    with
    | TypeError => TypeError
    | Ok bad_target =>
      let errors :=
        append_if bad_target
          (if buy then "Target price must be higher than entry for BUY"
           else "Target price must be lower than entry for SELL") errors in
      match
        (if bool_decide (order_type stop ∈ [STOP; STOP_LIMIT])
            && truthy (stop_price stop)
         then if buy
              then le_opt (limit_price entry) (stop_price stop)
              else le_opt (stop_price stop) (limit_price entry)
         else Ok false)
      with
      | TypeError => TypeError
      | Ok bad_stop =>
        Ok (append_if bad_stop
              (if buy then "Stop price must be lower than entry for BUY"
               else "Stop price must be higher than entry for SELL") errors)
      end
    end
  else Ok errors.

(** [OrderValidator.validate_bracket_order] *)
Definition validate_bracket_order (entry target stop : Order)
  : result (bool * list string) :=
  let errors : list string := [] in
  (* Validate each order individually *)
  match validate entry with
  | TypeError => TypeError
  | Ok (entry_valid, entry_errors) =>
    let errors := extend_unless entry_valid "Entry order" entry_errors errors in
    match validate target with
    | TypeError => TypeError
    | Ok (target_valid, target_errors) =>
      let errors :=
        extend_unless target_valid "Target order" target_errors errors in
      match validate stop with
      | TypeError => TypeError
      | Ok (stop_valid, stop_errors) =>
        let errors :=
          extend_unless stop_valid "Stop order" stop_errors errors in
        (* Bracket-specific validations *)
        let errors :=
          append_if (negb (String.eqb (symbol entry) (symbol target))
                     || negb (String.eqb (symbol entry) (symbol stop)))
                    "All bracket orders must be for the same symbol" errors in
        let errors :=
          append_if (negb (Qeq_bool (quantity entry) (quantity target))
                     || negb (Qeq_bool (quantity entry) (quantity stop)))
                    "All bracket orders must have the same quantity" errors in
        (* Target and stop should have opposite action from entry *)
        let errors :=
          if bool_decide (action entry = BUY) then
            append_if (negb (bool_decide (action stop = SELL)))
                      "Stop order must be SELL for BUY entry"
              (append_if (negb (bool_decide (action target = SELL)))
                         "Target order must be SELL for BUY entry" errors)
          else
            append_if (negb (bool_decide (action stop = BUY)))
                      "Stop order must be BUY for SELL entry"
              (append_if (negb (bool_decide (action target = BUY)))
                         "Target order must be BUY for SELL entry" errors) in
        (* Check price relationships for BUY entry, then for SELL entry *)
        match check_bracket_prices true entry target stop errors with
        | TypeError => TypeError
        | Ok errors =>
          match check_bracket_prices false entry target stop errors with
          | TypeError => TypeError
          | Ok errors => Ok ((length errors =? 0)%nat, errors)
          end
        end
      end
    end
  end.


End OrderValidator.

(** ** gallump_next/core/connection_pool.py *)

Module ConnectionPool.

(** A [ConnectionManager] object, by identity. *)
Definition conn := nat.

(** The pool.  [available] is the [asyncio.Queue] (head is next out).
    Three further fields record what the pool's surroundings decide:
    [connected] is the set of managers whose [is_connected()] holds,
    [next_conn] names the next manager [ConnectionManager(...)]
    constructs, and [waited] adds up the time spent blocked in
    [asyncio.wait_for]. *)
Record Pool := {
  max_connections : nat;
  connections : list conn;
  available : list conn;
  in_use : list conn;
  initialized : bool;
  connected : gset conn;
  next_conn : conn;
  waited : Q
}.

Inductive exn :=
| TimeoutError (timeout : Q)
| ConnectionError
| ValueError.

Inductive result (A : Type) :=
| Ok (a : A)
| Raise (e : exn).
Arguments Ok {A} a.
Arguments Raise {A} e.

Definition set_connections (l : list conn) (p : Pool) : Pool :=
  {| max_connections := max_connections p; connections := l;
     available := available p; in_use := in_use p;
     initialized := initialized p; connected := connected p;
     next_conn := next_conn p; waited := waited p |}.

Definition set_available (l : list conn) (p : Pool) : Pool :=
  {| max_connections := max_connections p; connections := connections p;
     available := l; in_use := in_use p;
     initialized := initialized p; connected := connected p;
     next_conn := next_conn p; waited := waited p |}.

Definition set_in_use (l : list conn) (p : Pool) : Pool :=
  {| max_connections := max_connections p; connections := connections p;
     available := available p; in_use := l;
     initialized := initialized p; connected := connected p;
     next_conn := next_conn p; waited := waited p |}.

Definition set_initialized (b : bool) (p : Pool) : Pool :=
  {| max_connections := max_connections p; connections := connections p;
     available := available p; in_use := in_use p;
     initialized := b; connected := connected p;
     next_conn := next_conn p; waited := waited p |}.

Definition set_connected (s : gset conn) (p : Pool) : Pool :=
  {| max_connections := max_connections p; connections := connections p;
     available := available p; in_use := in_use p;
     initialized := initialized p; connected := s;
     next_conn := next_conn p; waited := waited p |}.

Definition set_next_conn (n : conn) (p : Pool) : Pool :=
  {| max_connections := max_connections p; connections := connections p;
     available := available p; in_use := in_use p;
     initialized := initialized p; connected := connected p;
     next_conn := n; waited := waited p |}.

Definition set_waited (w : Q) (p : Pool) : Pool :=
  {| max_connections := max_connections p; connections := connections p;
     available := available p; in_use := in_use p;
     initialized := initialized p; connected := connected p;
     next_conn := next_conn p; waited := w |}.

Section WithGateway.

(** Whether the gateway accepts a (re)connection attempt of a manager:
    the final answer of [ConnectionManager.connect], retries included. *)
Variable reachable : conn -> bool.

(** [conn.is_connected()] *)
Definition is_connected (c : conn) (p : Pool) : bool :=
  bool_decide (c ∈ connected p).

(** [await conn.connect()] *)
Definition connect (c : conn) (p : Pool) : bool * Pool :=
  if is_connected c p then (true, p)
  else if reachable c then (true, set_connected ({[c]} ∪ connected p) p)
  else (false, p).

(** [ConnectionManager(self.host, self.port)] *)
Definition new_manager (p : Pool) : conn * Pool :=
  (next_conn p, set_next_conn (S (next_conn p)) p).

(** The body of [for i in range(self.max_connections)], [n] rounds. *)
Fixpoint initialize_loop (n : nat) (p : Pool) : Pool :=
  match n with
  | O => p
  | S n' =>
    let '(c, p) := new_manager p in
    let '(ok, p) := connect c p in
    let p := if ok
             then set_available (available p ++ [c])
                    (set_connections (connections p ++ [c]) p)
             else p in
    initialize_loop n' p
  end.

(** [ConnectionPool.initialize] *)
Definition initialize (p : Pool) : result unit * Pool :=
  if initialized p then (Ok tt, p)
  else
    let p := initialize_loop (max_connections p) p in
    match connections p with
    | [] => (Raise ConnectionError, p)
    | _ :: _ => (Ok tt, set_initialized true p)
    end.

(** The [try] block of [get_connection], on the queue [queue] (the
    contents of [self.available]).  [asyncio.wait_for(self.available.get(),
    timeout)] hands out the head of the queue at once; on an empty queue,
    with no release in the meantime, it gives up after [timeout] and the
    handler raises [TimeoutError].  A manager that is down and does not
    reconnect is dropped and the method calls itself on the rest. *)
Fixpoint checkout (timeout : Q) (queue : list conn) (p : Pool)
  : result conn * Pool :=
  match queue with
  | [] =>
    (Raise (TimeoutError timeout),
     set_waited (waited p + timeout) (set_available [] p))
  | c :: rest =>
    let p := set_available rest p in
    if is_connected c p then (Ok c, set_in_use (in_use p ++ [c]) p)
    else
      let '(ok, p) := connect c p in
      if ok then (Ok c, set_in_use (in_use p ++ [c]) p)
      else checkout timeout rest p
  end.

(** [ConnectionPool.get_connection] *)
Definition get_connection (timeout : Q) (p : Pool) : result conn * Pool :=
  let '(r, p) := if initialized p then (Ok tt, p) else initialize p in
  match r with
  | Raise e => (Raise e, p)
  | Ok _ => checkout timeout (available p) p
  end.

(** [l.remove(x)]: drops the first occurrence. *)
Fixpoint remove_first (x : conn) (l : list conn) : list conn :=
  match l with
  | [] => []
  | y :: l' => if Nat.eqb x y then l' else y :: remove_first x l'
  end.

(** [ConnectionPool.release_connection] *)
Definition release_connection (c : conn) (p : Pool) : result unit * Pool :=
  let p := if bool_decide (c ∈ in_use p)
           then set_in_use (remove_first c (in_use p)) p else p in
  if is_connected c p then (Ok tt, set_available (available p ++ [c]) p)
  else
    let '(ok, p) := connect c p in
    if ok then (Ok tt, set_available (available p ++ [c]) p)
    else if bool_decide (c ∈ connections p) then
      let p := set_connections (remove_first c (connections p)) p in
      let '(n, p) := new_manager p in
      let '(ok, p) := connect n p in
      if ok
      then (Ok tt, set_available (available p ++ [n])
                     (set_connections (connections p ++ [n]) p))
      else (Ok tt, p)
    else (Raise ValueError, p).

End WithGateway.

(** The pool holds no more managers than configured, and holds none
    before it is initialised ([__init__] and [close_all] leave it so). *)
Definition pool_bounded (p : Pool) : Prop :=
  (length (connections p) <= max_connections p)%nat /\
  (initialized p = false -> connections p = []).

Section WithGatewayApi.

Variable reachable : conn -> bool.





End WithGatewayApi.

End ConnectionPool.

(** ** gallump2_trading/core/connection_manager.py *)

Module ConnectionManager.

(** The fields of a [ConnectionManager] that [connect] and [_reconnect]
    read and write.  [ib_connected] is [self.ib and self.ib.isConnected()].
    Two further fields keep account of what the manager has done:
    [attempts_made] counts its calls of [connectAsync] and [slept] adds up
    the seconds spent in [asyncio.sleep]. *)
Record Manager := {
  ib_connected : bool;
  reconnect_attempts : nat;
  max_reconnects : nat;
  attempts_made : nat;
  slept : nat
}.

(** [ConnectionManager.__init__] *)
Definition new_manager : Manager :=
  {| ib_connected := false; reconnect_attempts := 0; max_reconnects := 5;
     attempts_made := 0; slept := 0 |}.

(** [wait_time = min(2 ** self.reconnect_attempts, 30)] *)
Definition wait_time (m : Manager) : nat :=
  Nat.min (2 ^ reconnect_attempts m) 30.

Section WithGateway.

(** Whether the gateway lets the manager's [k]-th call of [connectAsync]
    through (the call raises otherwise). *)
Variable accepts : nat -> bool.

(** [ConnectionManager.connect] and [ConnectionManager._reconnect], which
    call each other; [fuel] bounds the depth of the calls and [None] means
    it ran out. *)
Fixpoint connect (fuel : nat) (m : Manager) : option (bool * Manager) :=
  match fuel with
  | O => None
  | S fuel' =>
    if ib_connected m then Some (true, m)
    else if accepts (attempts_made m)
    then Some (true, {| ib_connected := true;
                        reconnect_attempts := 0;
                        max_reconnects := max_reconnects m;
                        attempts_made := S (attempts_made m);
                        slept := slept m |})
    else _reconnect fuel' {| ib_connected := false;
                             reconnect_attempts := reconnect_attempts m;
                             max_reconnects := max_reconnects m;
                             attempts_made := S (attempts_made m);
                             slept := slept m |}
  end
with _reconnect (fuel : nat) (m : Manager) : option (bool * Manager) :=
  match fuel with
  | O => None
  | S fuel' =>
    if (max_reconnects m <=? reconnect_attempts m)%nat then Some (false, m)
    else connect fuel' {| ib_connected := ib_connected m;
                          reconnect_attempts := S (reconnect_attempts m);
                          max_reconnects := max_reconnects m;
                          attempts_made := attempts_made m;
                          slept := slept m + wait_time m |}
  end.

End WithGateway.

(** The seconds slept over [n] consecutive reconnections that start with
    [a] reconnections already counted. *)
Fixpoint backoff_total (a n : nat) : nat :=
  match n with
  | O => O
  | S n' => Nat.min (2 ^ a) 30 + backoff_total (S a) n'
  end.

End ConnectionManager.

(** ** gallump/core/broker.py *)

Module Broker.
Import Types.

(** What a call on the [ib_insync] client does: it returns or it raises. *)
Inductive outcome (A : Type) :=
| Returns (a : A)
| Throws (e : string).
Arguments Returns {A} a.
Arguments Throws {A} e.

(** The gateway as the broker sees it during one method call.  Orders and
    trades are represented by their [orderId]; [ib_placeOrder] maps the
    [orderId] of the order handed in ([0] when unset) to the [orderId] of
    the trade that comes back. *)
Record Gateway := {
  ib_isConnected : bool;
  ib_positions : outcome (list string);
  ib_placeOrder : Z -> outcome Z;
  ib_trades : outcome (list Z);
  ib_openTrades : outcome (list Z);
  ib_cancelOrder : Z -> outcome unit;
  ib_getReqId : outcome Z
}.

(** The fields of [Broker] the health report reads. *)
Record Broker := {
  connected : bool;
  connection_ready : bool;
  client_id : option Z;
  last_successful_request : option datetime;
  failed_request_count : Z;
  total_request_count : Z
}.

(** [Broker.__init__] *)
Definition init (client_id : option Z) : Broker :=
  {| connected := false; connection_ready := false; client_id := client_id;
     last_successful_request := None;
     failed_request_count := 0; total_request_count := 0 |}.

(** [Broker._track_request_success] *)
Definition _track_request_success (now : datetime) (b : Broker) : Broker :=
  {| connected := connected b; connection_ready := connection_ready b;
     client_id := client_id b;
     last_successful_request := Some now;
     failed_request_count := failed_request_count b;
     total_request_count := total_request_count b + 1 |}.

(** [Broker._track_request_failure] *)
Definition _track_request_failure (b : Broker) : Broker :=
  {| connected := connected b; connection_ready := connection_ready b;
     client_id := client_id b;
     last_successful_request := last_successful_request b;
     failed_request_count := failed_request_count b + 1;
     total_request_count := total_request_count b + 1 |}.

(** [Broker.is_connected] *)
Definition is_connected (gw : Gateway) (b : Broker) : bool :=
  connected b && ib_isConnected gw.

Definition str_of_id (n : Z) : string := NilZero.string_of_int (Z.to_int n).

(** [Broker.get_positions]; a position is represented by its symbol. *)
Definition get_positions (gw : Gateway) (now : datetime) (b : Broker)
  : list string * Broker :=
  if negb (is_connected gw b) then ([], b)
  else if negb (connection_ready b) then ([], b)
  else
    match ib_positions gw with
    | Returns [] => ([], b)
    | Returns ps => (ps, _track_request_success now b)
    | Throws e => ([], _track_request_failure b)
    end.

(** [Broker.place_order]: the order id, or [None]. *)
Definition place_order (gw : Gateway) (symbol action : string) (quantity : Z)
           (order_type : string) (limit_price : option Q) (b : Broker)
  : option string * Broker :=
  if negb (is_connected gw b) then (None, b)
  else
    match ib_placeOrder gw 0 with
    | Returns oid =>
      if (oid =? 0)%Z then (None, b) else (Some (str_of_id oid), b)
    | Throws e => (None, b)
    end.

(** [Broker.cancel_order] *)
Definition cancel_order (gw : Gateway) (order_id : string) (b : Broker)
  : bool * Broker :=
  if negb (is_connected gw b) then (false, b)
  else
    match ib_trades gw with
    | Returns ts =>
      match List.find (fun t => String.eqb (str_of_id t) order_id) ts with
      | Some t =>
        match ib_cancelOrder gw t with
        | Returns _ => (true, b)
        | Throws e => (false, b)
        end
      | None => (false, b)
      end
    | Throws e => (false, b)
    end.

(** [Broker.get_open_orders]; an order is represented by its id. *)
Definition get_open_orders (gw : Gateway) (now : datetime) (b : Broker)
  : list Z * Broker :=
  if negb (is_connected gw b) then ([], b)
  else
    match ib_openTrades gw with
    | Returns ts => (ts, _track_request_success now b)
    | Throws e => ([], _track_request_failure b)
    end.

(** [Broker.modify_order] *)
Definition modify_order (gw : Gateway) (now : datetime) (order_id : string)
           (b : Broker) : bool * Broker :=
  if negb (is_connected gw b) then (false, _track_request_failure b)
  else
    match ib_openTrades gw with
    | Returns ts =>
      match List.find (fun t => String.eqb (str_of_id t) order_id) ts with
      | Some t =>
        match ib_placeOrder gw t with
        | Returns _ => (true, _track_request_success now b)
        | Throws e => (false, _track_request_failure b)
        end
      | None => (false, _track_request_failure b)
      end
    | Throws e => (false, _track_request_failure b)
    end.

(** The ids [place_bracket_order] returns. *)
Record BracketIds := {
  bracket_parent_id : string;
  bracket_profit_id : string;
  bracket_stop_id : string
}.

(** [Broker.place_bracket_order]: [inl] the ids, [inr] the message of the
    [Exception] it raises.  The three orders take three request ids and
    are placed parent first. *)
Definition place_bracket_order (gw : Gateway) (now : datetime) (b : Broker)
  : (BracketIds + string) * Broker :=
  if negb (is_connected gw b)
  then (inr "Bracket order failed: Not connected to IBKR", _track_request_failure b)
  else
    match ib_getReqId gw with
    | Throws e => (inr ("Bracket order failed: " +:+ e), _track_request_failure b)
    | Returns parent =>
      let profit := (parent + 1)%Z in
      let stop := (parent + 2)%Z in
      match ib_placeOrder gw parent, ib_placeOrder gw profit, ib_placeOrder gw stop with
      | Returns _, Returns _, Returns _ =>
        (inl {| bracket_parent_id := str_of_id parent;
                bracket_profit_id := str_of_id profit;
                bracket_stop_id := str_of_id stop |},
         _track_request_success now b)
      | Throws e, _, _ | Returns _, Throws e, _ | Returns _, Returns _, Throws e =>
        (inr ("Bracket order failed: " +:+ e), _track_request_failure b)
      end
    end.

(** The dictionary [get_connection_health] returns (without the
    [market_status] entry, which reads the wall clock). *)
Record Health := {
  health_connected : bool;
  health_connection_ready : bool;
  health_client_id : option Z;
  health_last_successful_request : option datetime;
  total_requests : Z;
  failed_requests : Z;
  success_rate : Q
}.

(** [Broker.get_connection_health] *)
Definition get_connection_health (b : Broker) : Health :=
  let success_rate :=
    if (0 <? total_request_count b)%Z
    then inject_Z (total_request_count b - failed_request_count b)
         / inject_Z (total_request_count b)
    else 0 in
  {| health_connected := connected b;
     health_connection_ready := connection_ready b;
     health_client_id := client_id b;
     health_last_successful_request := last_successful_request b;
     total_requests := total_request_count b;
     failed_requests := failed_request_count b;
     success_rate := success_rate |}.

(** [Broker.validate_ibkr_order_type] *)
Definition validate_ibkr_order_type (order_type : string)
           (order_params : gmap string Validators.value) : bool :=
  let has k := bool_decide (is_Some (order_params !! k)) in
  if String.eqb order_type "TRAIL"
  then has "trail_amount" || has "trail_percent"
  else if String.eqb order_type "STP LMT"
  then forallb has ["limit_price"; "stop_price"]
  else if bool_decide (order_type ∈ ["PEGMKT"; "PEGMID"])
  then has "offset_amount"
  else if bool_decide (order_type ∈ ["MIT"; "LIT"])
  then has "stop_price"
  else true.

(** The [ib_insync] objects as [get_enhanced_open_orders] reads them.
    Order sizes are whole numbers ([PendingOrder.quantity] is an [int]);
    fills and prices are fractional.  An attribute read with
    [getattr(.., None)] is an [option]. *)
Record IBOrder := {
  orderId : Z;
  ib_action : string;
  totalQuantity : Z;
  orderType : string;
  lmtPrice : option Qc;
  auxPrice : option Qc;
  trailStopPrice : option Qc;
  trailingPercent : option Qc;
  lmtPriceOffset : option Qc;
  startingPrice : option Qc;
  tif : string;
  goodAfterTime : option datetime;
  goodTillDate : option datetime;
  parentId : Z;
  ocaGroup : string
}.

Record IBOrderStatus := {
  ib_status : string;
  filled : Q;
  avgFillPrice : Q
}.

Record IBContract := {
  ib_symbol : string;
  secType : option string;
  right : option string;
  ib_strike : option Qc;
  lastTradeDateOrContractMonth : option string
}.

Record IBTrade := {
  trade_order : IBOrder;
  trade_orderStatus : IBOrderStatus;
  trade_contract : IBContract
}.

(** [int(x) if x else 0] *)
Definition int_or_zero (x : Q) : Z := if Py.truthy x then Py.int x else 0%Z.

(** The body of the loop of [get_enhanced_open_orders]: the
    [PendingOrder] built from one trade. *)
Definition pending_order_of_trade (now : datetime) (trade : IBTrade)
  : PendingOrder :=
  let order_obj := trade_order trade in
  let status_obj := trade_orderStatus trade in
  let contract := trade_contract trade in
  (* Handle asset type detection *)
  let '(asset, opt, strk, expi) :=
    match secType contract with
    | Some sec =>
      if String.eqb sec "OPT"
      then ("OPTION"%string, right contract, ib_strike contract,
            lastTradeDateOrContractMonth contract)
      else if String.eqb sec "FUT" then ("FUTURE"%string, None, None, None)
      else if String.eqb sec "CASH" then ("FOREX"%string, None, None, None)
      else ("STOCK"%string, None, None, None)
    | None => ("STOCK"%string, None, None, None)
    end in
  (* Calculate remaining quantity *)
  let remaining_qty := inject_Z (totalQuantity order_obj) - filled status_obj in
  {| order_id := str_of_id (orderId order_obj);
     symbol := ib_symbol contract;
     action := ib_action order_obj;
     quantity := totalQuantity order_obj;
     order_type := orderType order_obj;
     limit_price := lmtPrice order_obj;
     stop_price := auxPrice order_obj;
     trail_amount := trailStopPrice order_obj;
     trail_percent := trailingPercent order_obj;
     offset_amount := lmtPriceOffset order_obj;
     midpoint_offset := startingPrice order_obj;
     time_in_force := if String.eqb (tif order_obj) "" then "DAY"
                      else tif order_obj;
     good_after_time := goodAfterTime order_obj;
     good_till_date := goodTillDate order_obj;
     status := ib_status status_obj;
     filled_quantity := int_or_zero (filled status_obj);
     remaining_quantity := int_or_zero remaining_qty;
     avg_fill_price :=
       if Py.truthy (avgFillPrice status_obj)
          && Py.gtb (avgFillPrice status_obj) 0
       then Some (Q2Qc (avgFillPrice status_obj)) else None;
     parent_id := if (parentId order_obj =? 0)%Z then None
                  else Some (str_of_id (parentId order_obj));
     oca_group := if String.eqb (ocaGroup order_obj) "" then None
                  else Some (ocaGroup order_obj);
     submitted_at := now;
     strategy_id := None;
     notes := None;
     asset_type := asset;
     option_type := opt;
     strike := strk;
     expiry := expi |}.

(** [Broker.get_enhanced_open_orders]; [open_trades] is what
    [self.ib.openTrades()] does, in full. *)
Definition get_enhanced_open_orders (gw : Gateway)
           (open_trades : outcome (list IBTrade)) (now : datetime) (b : Broker)
  : list PendingOrder * Broker :=
  if negb (is_connected gw b) then ([], b)
  else
    match open_trades with
    | Returns trades =>
      (pending_order_of_trade now <$> trades, _track_request_success now b)
    | Throws e => ([], _track_request_failure b)
    end.

(** The calls on the broker that the health counters can see. *)
Inductive call :=
| GetPositions
| PlaceOrder (symbol action : string) (quantity : Z) (order_type : string)
             (limit_price : option Q)
| CancelOrder (order_id : string)
| GetOpenOrders
| GetEnhancedOpenOrders (open_trades : outcome (list IBTrade))
| ModifyOrder (order_id : string)
| PlaceBracketOrder.

Definition perform (gw : Gateway) (now : datetime) (c : call) (b : Broker)
  : Broker :=
  match c with
  | GetPositions => snd (get_positions gw now b)
  | PlaceOrder symbol action quantity order_type limit_price =>
    snd (place_order gw symbol action quantity order_type limit_price b)
  | CancelOrder order_id => snd (cancel_order gw order_id b)
  | GetOpenOrders => snd (get_open_orders gw now b)
  | GetEnhancedOpenOrders open_trades =>
    snd (get_enhanced_open_orders gw open_trades now b)
  | ModifyOrder order_id => snd (modify_order gw now order_id b)
  | PlaceBracketOrder => snd (place_bracket_order gw now b)
  end.

(** The counters are consistent: failures are counted among the
    requests. *)
Definition counters_ok (b : Broker) : Prop :=
  (0 <= failed_request_count b <= total_request_count b)%Z.


End Broker.

(** ** Concrete inputs used by the examples below *)

Module Examples.




Definition portfolio_10k : Risk.Portfolio :=
  {| Risk.total_value := 10000; Risk.positions := [] |}.



(** The bracket of the specification's scenario: main LMT BUY 100 @ 50,
    target LMT SELL 100 @ 55, stop STP SELL 100 @ 45. *)
Definition make_order (oid action order_type st : string) (filled : Z)
           (parent oca : option string) : Types.PendingOrder :=
  {| Types.order_id := oid; Types.symbol := "AAPL"; Types.action := action;
     Types.quantity := 100; Types.order_type := order_type;
     Types.limit_price := None; Types.stop_price := None;
     Types.trail_amount := None; Types.trail_percent := None;
     Types.offset_amount := None; Types.midpoint_offset := None;
     Types.time_in_force := "GTC"; Types.good_after_time := None;
     Types.good_till_date := None; Types.status := st;
     Types.filled_quantity := filled;
     Types.remaining_quantity := (100 - filled)%Z;
     Types.avg_fill_price := None; Types.parent_id := parent;
     Types.oca_group := oca; Types.submitted_at := 0%Z;
     Types.strategy_id := None; Types.notes := None;
     Types.asset_type := "STOCK"; Types.option_type := None;
     Types.strike := None; Types.expiry := None |}.








(** A store with one working order ("10") and one cancelled order ("11"),
    and a snapshot that holds neither but a new order ("12"). *)
Definition order_10 : Types.PendingOrder :=
  make_order "10" "BUY" "LMT" "Submitted" 0 None None.

Definition order_11 : Types.PendingOrder :=
  make_order "11" "BUY" "LMT" "Cancelled" 0 None None.

Definition order_12 : Types.PendingOrder :=
  make_order "12" "SELL" "LMT" "PreSubmitted" 0 None None.

Definition row_10 : Storage.Row :=
  {| Storage.row_id := 1; Storage.columns := order_10;
     Storage.last_updated := 100%Z |}.

Definition row_11 : Storage.Row :=
  {| Storage.row_id := 2; Storage.columns := order_11;
     Storage.last_updated := 100%Z |}.

Definition store_two : Storage.Store :=
  {| Storage.rows := <["10" := row_10]> (<["11" := row_11]> ∅);
     Storage.seq := 2 |}.

Definition store_empty : Storage.Store :=
  {| Storage.rows := ∅; Storage.seq := 0 |}.


(** A pool of three managers, all checked out. *)
Definition pool_exhausted : ConnectionPool.Pool :=
  {| ConnectionPool.max_connections := 3;
     ConnectionPool.connections := [0; 1; 2]%nat;
     ConnectionPool.available := [];
     ConnectionPool.in_use := [0; 1; 2]%nat;
     ConnectionPool.initialized := true;
     ConnectionPool.connected := {[0; 1; 2]}%nat;
     ConnectionPool.next_conn := 3%nat;
     ConnectionPool.waited := 0 |}.

(** A gateway that accepts every connection attempt. *)
Definition always_reachable : ConnectionPool.conn -> bool := fun _ => true.


(** A trailing-stop order that sets both trailing modes:
    [{'symbol': 'AAPL', 'action': 'SELL', 'quantity': 100,
      'order_type': 'TRAIL', 'trail_percent': 5, 'trail_amount': 2.0}]. *)
Definition order_trail_both : gmap string Validators.value :=
  list_to_map [("symbol", Validators.VStr "AAPL");
               ("action", Validators.VStr "SELL");
               ("quantity", Validators.VInt 100);
               ("order_type", Validators.VStr "TRAIL");
               ("trail_percent", Validators.VInt 5);
               ("trail_amount", Validators.VFloat 2)].

(** What [validate_order] returns for it. *)
Definition normalized_trail_both : gmap string Validators.value :=
  list_to_map [("symbol", Validators.VStr "AAPL");
               ("action", Validators.VStr "SELL");
               ("quantity", Validators.VInt 100);
               ("asset_type", Validators.VStr "STOCK");
               ("order_type", Validators.VStr "TRAIL");
               ("time_in_force", Validators.VStr "DAY");
               ("trail_percent", Validators.VFloat (inject_Z 5));
               ("trail_amount", Validators.VFloat 2)].

(** The same order as an [Order] of [gallump_next]. *)
Definition next_order_trail_both : OrderValidator.Order :=
  {| OrderValidator.symbol := "AAPL";
     OrderValidator.action := OrderValidator.SELL;
     OrderValidator.quantity := 100;
     OrderValidator.order_type := OrderValidator.TRAILING_STOP;
     OrderValidator.limit_price := None;
     OrderValidator.stop_price := None;
     OrderValidator.trail_amount := Some 2;
     OrderValidator.trail_percent := Some 5;
     OrderValidator.time_in_force := OrderValidator.DAY;
     OrderValidator.asset_type := OrderValidator.STOCK |}.


(** A connected broker that has made no request yet, and two gateways:
    one that accepts every call (the placed order gets id 7) and one on
    which every call raises. *)
Definition broker_connected : Broker.Broker :=
  {| Broker.connected := true; Broker.connection_ready := true;
     Broker.client_id := Some 42%Z;
     Broker.last_successful_request := None;
     Broker.failed_request_count := 0; Broker.total_request_count := 0 |}.

Definition gateway_accepting : Broker.Gateway :=
  {| Broker.ib_isConnected := true;
     Broker.ib_positions := Broker.Returns ["AAPL"];
     Broker.ib_placeOrder := fun _ => Broker.Returns 7%Z;
     Broker.ib_trades := Broker.Returns [7%Z];
     Broker.ib_openTrades := Broker.Returns [7%Z];
     Broker.ib_cancelOrder := fun _ => Broker.Returns tt;
     Broker.ib_getReqId := Broker.Returns 7%Z |}.

Definition gateway_failing : Broker.Gateway :=
  {| Broker.ib_isConnected := true;
     Broker.ib_positions := Broker.Throws "timeout";
     Broker.ib_placeOrder := fun _ => Broker.Throws "timeout";
     Broker.ib_trades := Broker.Throws "timeout";
     Broker.ib_openTrades := Broker.Throws "timeout";
     Broker.ib_cancelOrder := fun _ => Broker.Throws "timeout";
     Broker.ib_getReqId := Broker.Returns 7%Z |}.



(** The order of a gateway trade: SELL 100 AAPL at a limit of 55, order
    id 12, working, with 40 shares filled at 55. *)
Definition ib_order_12 : Broker.IBOrder :=
  {| Broker.orderId := 12; Broker.ib_action := "SELL";
     Broker.totalQuantity := 100; Broker.orderType := "LMT";
     Broker.lmtPrice := Some (Q2Qc 55); Broker.auxPrice := None;
     Broker.trailStopPrice := None; Broker.trailingPercent := None;
     Broker.lmtPriceOffset := None; Broker.startingPrice := None;
     Broker.tif := "GTC"; Broker.goodAfterTime := None;
     Broker.goodTillDate := None; Broker.parentId := 0;
     Broker.ocaGroup := "" |}.

Definition contract_aapl : Broker.IBContract :=
  {| Broker.ib_symbol := "AAPL"; Broker.secType := Some "STK";
     Broker.right := None; Broker.ib_strike := None;
     Broker.lastTradeDateOrContractMonth := None |}.

Definition trade_12 : Broker.IBTrade :=
  {| Broker.trade_order := ib_order_12;
     Broker.trade_orderStatus :=
       {| Broker.ib_status := "Submitted"; Broker.filled := 40;
          Broker.avgFillPrice := 55 |};
     Broker.trade_contract := contract_aapl |}.

(** The same trade with a fractional fill of 40.5 shares. *)
Definition trade_12_fractional : Broker.IBTrade :=
  {| Broker.trade_order := ib_order_12;
     Broker.trade_orderStatus :=
       {| Broker.ib_status := "Submitted"; Broker.filled := 81 # 2;
          Broker.avgFillPrice := 55 |};
     Broker.trade_contract := contract_aapl |}.

(** A store whose row for order 12 is linked to strategy 7. *)
Definition row_12_linked : Storage.Row :=
  {| Storage.row_id := 1;
     Storage.columns :=
       {| Types.order_id := "12"; Types.symbol := "AAPL";
          Types.action := "SELL"; Types.quantity := 100;
          Types.order_type := "LMT";
          Types.limit_price := Some (Q2Qc 55); Types.stop_price := None;
          Types.trail_amount := None; Types.trail_percent := None;
          Types.offset_amount := None; Types.midpoint_offset := None;
          Types.time_in_force := "GTC"; Types.good_after_time := None;
          Types.good_till_date := None; Types.status := "Submitted";
          Types.filled_quantity := 0; Types.remaining_quantity := 100;
          Types.avg_fill_price := None; Types.parent_id := None;
          Types.oca_group := None; Types.submitted_at := 0%Z;
          Types.strategy_id := Some 7%Z; Types.notes := Some "entry"%string;
          Types.asset_type := "STOCK"; Types.option_type := None;
          Types.strike := None; Types.expiry := None |};
     Storage.last_updated := 100%Z |}.

Definition store_linked : Storage.Store :=
  {| Storage.rows := <["12" := row_12_linked]> ∅; Storage.seq := 1 |}.

(** A broker that is not connected. *)
Definition broker_disconnected : Broker.Broker :=
  {| Broker.connected := false; Broker.connection_ready := false;
     Broker.client_id := Some 42%Z;
     Broker.last_successful_request := None;
     Broker.failed_request_count := 0; Broker.total_request_count := 0 |}.

(** A portfolio worth 10000 that holds no position, and a trade of 20
    shares at 50. *)
Definition trade_20 : Risk.Trade :=
  {| Risk.asset_type := "STOCK"; Risk.price := 50; Risk.quantity := 20 |}.

Definition trade_10 : Risk.Trade :=
  {| Risk.asset_type := "STOCK"; Risk.price := 50; Risk.quantity := 10 |}.

(** A bracket of [gallump_next] orders: BUY 100 AAPL at a limit of 50,
    target SELL at a limit of 55, stop SELL at 45. *)
Definition next_order (action : OrderValidator.OrderAction)
           (order_type : OrderValidator.OrderType)
           (limit stop : option Q) : OrderValidator.Order :=
  {| OrderValidator.symbol := "AAPL";
     OrderValidator.action := action;
     OrderValidator.quantity := 100;
     OrderValidator.order_type := order_type;
     OrderValidator.limit_price := limit;
     OrderValidator.stop_price := stop;
     OrderValidator.trail_amount := None;
     OrderValidator.trail_percent := None;
     OrderValidator.time_in_force := OrderValidator.DAY;
     OrderValidator.asset_type := OrderValidator.STOCK |}.

Definition next_entry : OrderValidator.Order :=
  next_order OrderValidator.BUY OrderValidator.LIMIT (Some 50) None.

Definition next_target : OrderValidator.Order :=
  next_order OrderValidator.SELL OrderValidator.LIMIT (Some 55) None.

Definition next_stop : OrderValidator.Order :=
  next_order OrderValidator.SELL OrderValidator.STOP None (Some 45).


(** An initialised pool of two managers, both idle in the queue; manager 0
    has lost its connection, manager 1 is connected. *)
Definition pool_idle : ConnectionPool.Pool :=
  {| ConnectionPool.max_connections := 2;
     ConnectionPool.connections := [0; 1]%nat;
     ConnectionPool.available := [0; 1]%nat;
     ConnectionPool.in_use := [];
     ConnectionPool.initialized := true;
     ConnectionPool.connected := {[1]}%nat;
     ConnectionPool.next_conn := 2%nat;
     ConnectionPool.waited := 0 |}.

(** A gateway that refuses every connection attempt of the pool. *)
Definition never_reachable : ConnectionPool.conn -> bool := fun _ => false.

(** A gateway that refuses a manager's first two calls of [connectAsync]
    and accepts from the third on, and one that refuses every call. *)
Definition accepts_third : nat -> bool := fun k => (2 <=? k)%nat.

Definition accepts_never : nat -> bool := fun _ => false.

(** A runtime for orders whose values are numbers already: no string is
    read as a number, and every expiry string has the date format. *)
Definition runtime_numeric : Validators.Runtime :=
  {| Validators.repr_float := fun _ => ""%string;
     Validators.int_of_str := fun _ => None;
     Validators.float_of_str := fun _ => None;
     Validators.strptime_ymd := fun _ => true |}.



(** A limit order as a client sends it, in lower case:
    [{'symbol': 'aapl', 'action': 'buy', 'quantity': 100,
      'order_type': 'limit', 'limit_price': 50.5}],
    and what [validate_order] returns for it. *)
Definition order_limit : gmap string Validators.value :=
  list_to_map [("symbol", Validators.VStr "aapl");
               ("action", Validators.VStr "buy");
               ("quantity", Validators.VInt 100);
               ("order_type", Validators.VStr "limit");
               ("limit_price", Validators.VFloat (101 # 2))].

Definition normalized_limit : gmap string Validators.value :=
  list_to_map [("symbol", Validators.VStr "AAPL");
               ("action", Validators.VStr "BUY");
               ("quantity", Validators.VInt 100);
               ("asset_type", Validators.VStr "STOCK");
               ("order_type", Validators.VStr "LMT");
               ("time_in_force", Validators.VStr "DAY");
               ("limit_price", Validators.VFloat (101 # 2))].


End Examples.

(** * Properties *)

(** ** Python arithmetic *)

Section PyFacts.


Lemma gtb_false_iff (a b : Q) : Py.gtb a b = false <-> a <= b.
Proof.
  unfold Py.gtb. rewrite negb_false_iff. apply Qle_bool_iff.
Qed.



Lemma truthy_false_iff (x : Q) : Py.truthy x = false <-> x == 0.
Proof. unfold Py.truthy. rewrite negb_false_iff. apply Qeq_bool_iff. Qed.

Lemma truthy_true_iff (x : Q) : Py.truthy x = true <-> ~ x == 0.
Proof.
  unfold Py.truthy.
  rewrite negb_true_iff, <- not_true_iff_false, Qeq_bool_iff. tauto.
Qed.



Lemma or_else_one_not_zero (x : Q) : ~ Py.or_else x 1 == 0.
Proof.
  unfold Py.or_else. destruct (Py.truthy x) eqn:E.
  - now apply truthy_true_iff.
  - discriminate.
Qed.

Lemma div_nonzero (a b : Q) : ~ b == 0 -> Py.div a b = Some (a / b).
Proof.
  intros Hb. unfold Py.div.
  destruct (Qeq_bool b 0) eqn:E; [|reflexivity].
  apply Qeq_bool_iff in E. contradiction.
Qed.

Lemma div_or_else_one (a x : Q) :
  Py.div a (Py.or_else x 1) = Some (a / Py.or_else x 1).
Proof. apply div_nonzero, or_else_one_not_zero. Qed.

(** On a non-negative number [int] is the floor. *)
Lemma int_nonneg_floor (x : Q) : 0 <= x -> Py.int x = Qfloor x.
Proof.
  destruct x as [n d]. unfold Qle, Py.int, Qfloor. simpl. intros Hn.
  apply Z.quot_div_nonneg; lia.
Qed.




End PyFacts.


(** ** Risk gate *)

Section RiskFacts.
Import Risk.

Variable cfg : Config.

(** What [evaluate] returns, with the divisor made explicit. *)
Lemma evaluate_unfold (t : Trade) (p : Portfolio) :
  let pct := quantity t * price t / Py.or_else (total_value p) 1 in
  exists r, evaluate cfg t p = Some r /\
    position_size r = quantity t /\
    approved r = negb (size_violated cfg pct || count_violated cfg p) /\
    warnings r =
      (if size_violated cfg pct
       then [PositionTooLarge pct (max_position_pct cfg)] else []) ++
      (if count_violated cfg p
       then [TooManyPositions (length (positions p)) (max_positions cfg)]
       else []).
Proof.
  intros pct. unfold evaluate. rewrite div_or_else_one. fold pct.
  destruct (size_violated cfg pct), (count_violated cfg p);
    eexists; repeat split; reflexivity.
Qed.




End RiskFacts.


Section RiskExamples.
Import Risk Examples.



End RiskExamples.

Section SafeSize.
Import Risk.

Variable cfg : Config.



End SafeSize.

Section SafeSizeExamples.
Import Risk Examples.



End SafeSizeExamples.

Section Degenerate.
Import Risk.

Variable cfg : Config.


End Degenerate.

Section DegenerateExamples.
Import Risk Examples.


End DegenerateExamples.


(** ** Bracket status *)

Section BracketFacts.
Import Types.






End BracketFacts.

Section BracketExamples.
Import Types Examples.



End BracketExamples.


(** ** Order store reconciliation *)

Section StorageFacts.
Import Types Storage.

Implicit Types (s : Store) (r : Row) (o : PendingOrder) (k oid : string)
         (live : list PendingOrder) (now : datetime).

Lemma is_open_not_terminal r : is_open r = true -> not_terminal r = true.
Proof.
  unfold is_open, not_terminal, open_statuses.
  rewrite bool_decide_eq_true, negb_true_iff, bool_decide_eq_false.
  rewrite !elem_of_cons, !elem_of_nil.
  intros [E | [E | [E | [E | []]]]]; rewrite E;
    intros [? | [? | []]]; discriminate.
Qed.

Lemma filled_row_status now r :
  not_terminal r = true -> status (columns (filled_row now r)) = "Filled"%string.
Proof. intros Hnt. unfold filled_row. now rewrite Hnt. Qed.

Lemma filled_row_terminal now r : not_terminal (filled_row now r) = false.
Proof.
  unfold filled_row. destruct (not_terminal r) eqn:E; [reflexivity | exact E].
Qed.

Lemma filled_row_idem now r :
  filled_row now (filled_row now r) = filled_row now r.
Proof.
  unfold filled_row at 1. now rewrite filled_row_terminal.
Qed.

Lemma absent_row_closed now r : is_open (absent_row now r) = false.
Proof.
  unfold absent_row. destruct (is_open r) eqn:E; [|exact E].
  apply not_true_iff_false. intros Hopen.
  apply is_open_not_terminal in Hopen.
  now rewrite filled_row_terminal in Hopen.
Qed.

(** *** The implicit-fill phase *)

Lemma mark_filled_lookup now s oid k :
  rows (mark_filled now s oid) !! k =
  if decide (k = oid) then filled_row now <$> rows s !! k else rows s !! k.
Proof.
  unfold mark_filled, filled_row.
  destruct (rows s !! oid) as [r|] eqn:E.
  - destruct (not_terminal r) eqn:Hnt; simpl; case_decide; subst;
      rewrite ?lookup_insert_eq, ?lookup_insert_ne, ?E by congruence;
      simpl; rewrite ?Hnt; reflexivity.
  - case_decide; subst; rewrite ?E; reflexivity.
Qed.

Lemma mark_filled_seq now s oid : seq (mark_filled now s oid) = seq s.
Proof.
  unfold mark_filled. destruct (rows s !! oid) as [r|]; [|reflexivity].
  now destruct (not_terminal r).
Qed.

Lemma mark_all_lookup now (ids : list string) s k :
  rows (foldl (mark_filled now) s ids) !! k =
  if decide (k ∈ ids) then filled_row now <$> rows s !! k else rows s !! k.
Proof.
  revert s. induction ids as [|a ids IH]; intros s; cbn [foldl].
  - destruct (decide (k ∈ @nil string)) as [Hin|]; [|reflexivity].
    now apply elem_of_nil in Hin.
  - rewrite IH, mark_filled_lookup.
    destruct (decide (k ∈ a :: ids)) as [Hin|Hnin].
    + destruct (decide (k = a)) as [->|Hne].
      * destruct (decide (a ∈ ids)); [|reflexivity].
        destruct (rows s !! a); simpl; [|reflexivity].
        now rewrite filled_row_idem.
      * apply elem_of_cons in Hin as [Heq|Hin]; [contradiction|].
        destruct (decide (k ∈ ids)); [reflexivity | contradiction].
    + apply not_elem_of_cons in Hnin as [Hne Hnin].
      destruct (decide (k ∈ ids)); [contradiction|].
      destruct (decide (k = a)); [contradiction | reflexivity].
Qed.

Lemma mark_all_seq now (ids : list string) s :
  seq (foldl (mark_filled now) s ids) = seq s.
Proof.
  revert s. induction ids as [|a ids IH]; intros s; simpl; [reflexivity|].
  now rewrite IH, mark_filled_seq.
Qed.

Lemma elem_of_db_order_ids s k :
  k ∈ db_order_ids s <-> exists r, rows s !! k = Some r /\ is_open r = true.
Proof.
  unfold db_order_ids. rewrite elem_of_dom. unfold is_Some.
  split; intros [r Hr]; exists r.
  - now apply map_lookup_filter_Some in Hr.
  - now apply map_lookup_filter_Some.
Qed.

Lemma elem_of_live_order_ids live k :
  k ∈ live_order_ids live <-> k ∈ order_id <$> live.
Proof. unfold live_order_ids. apply elem_of_list_to_set. Qed.

(** *** The upsert phase *)

Lemma insert_or_replace_lookup now s o k :
  rows (insert_or_replace now s o) !! k =
  if decide (k = order_id o)
  then Some {| row_id := seq s + 1; columns := o; last_updated := now |}
  else rows s !! k.
Proof.
  unfold insert_or_replace. simpl. case_decide; subst.
  - apply lookup_insert_eq.
  - now apply lookup_insert_ne.
Qed.

Lemma upsert_all_absent now live s k :
  k ∉ order_id <$> live ->
  rows (foldl (insert_or_replace now) s live) !! k = rows s !! k.
Proof.
  revert s. induction live as [|o live IH]; intros s Hk; simpl; [reflexivity|].
  rewrite fmap_cons, not_elem_of_cons in Hk. destruct Hk as [Hne Hk].
  rewrite IH by exact Hk. rewrite insert_or_replace_lookup.
  now rewrite decide_False.
Qed.

Lemma upsert_all_columns now live s k :
  columns <$> rows (foldl (insert_or_replace now) s live) !! k =
  match find_last k live with
  | Some o => Some o
  | None => columns <$> rows s !! k
  end.
Proof.
  revert s. induction live as [|o live IH]; intros s; simpl; [reflexivity|].
  rewrite IH. destruct (find_last k live) as [o'|]; [reflexivity|].
  rewrite insert_or_replace_lookup.
  destruct (decide (k = order_id o)) as [->|Hne].
  - now rewrite bool_decide_eq_true_2.
  - rewrite bool_decide_eq_false_2 by congruence. reflexivity.
Qed.

Lemma upsert_all_seq now live s :
  seq (foldl (insert_or_replace now) s live) = (seq s + Z.of_nat (length live))%Z.
Proof.
  revert s. induction live as [|o live IH]; intros s; simpl foldl.
  - simpl. lia.
  - rewrite IH. simpl. lia.
Qed.

Lemma find_last_None k live :
  find_last k live = None <-> k ∉ order_id <$> live.
Proof.
  induction live as [|o live IH]; cbn [find_last].
  - split; [intros _; apply not_elem_of_nil | reflexivity].
  - rewrite fmap_cons, not_elem_of_cons, <- IH.
    destruct (find_last k live); [split; [discriminate | intros [_ ?]; done]|].
    case_bool_decide as Hid; split; try done.
    all: try (intros [Hne _]; congruence).
    all: try (intros _; split; [congruence | reflexivity]).
Qed.


(** *** One pass *)

Lemma sync_lookup_absent now live s k :
  k ∉ order_id <$> live ->
  rows (sync_pending_orders now live s) !! k = absent_row now <$> rows s !! k.
Proof.
  intros Hk. unfold sync_pending_orders.
  rewrite upsert_all_absent by exact Hk. rewrite mark_all_lookup.
  unfold absent_row. case_decide as Hin.
  - rewrite elem_of_elements, elem_of_difference, elem_of_db_order_ids in Hin.
    destruct Hin as [(r & Hr & Hopen) _]. rewrite Hr. simpl.
    now rewrite Hopen.
  - destruct (rows s !! k) as [r|] eqn:Hr; [|reflexivity]. simpl.
    destruct (is_open r) eqn:Hopen; [|reflexivity].
    exfalso. apply Hin.
    rewrite elem_of_elements, elem_of_difference, elem_of_db_order_ids.
    split; [eauto|]. now rewrite elem_of_live_order_ids.
Qed.

Lemma sync_columns now live s k :
  get_pending_orders (sync_pending_orders now live s) !! k =
  match find_last k live with
  | Some o => Some o
  | None => columns <$> (absent_row now <$> rows s !! k)
  end.
Proof.
  unfold get_pending_orders. rewrite lookup_fmap.
  destruct (find_last k live) as [o|] eqn:Hfind.
  - unfold sync_pending_orders. now rewrite upsert_all_columns, Hfind.
  - apply find_last_None in Hfind. now rewrite sync_lookup_absent.
Qed.

Lemma sync_seq now live s :
  seq (sync_pending_orders now live s) = (seq s + Z.of_nat (length live))%Z.
Proof.
  unfold sync_pending_orders. now rewrite upsert_all_seq, mark_all_seq.
Qed.


(** C10: a row that is not in the open set and whose order id is absent
    from the snapshot is left exactly as it was (status, order columns, row
    id and [last_updated]); in particular a [Cancelled] or [Filled] row
    that has vanished from the gateway is not rewritten. *)
Theorem sync_leaves_closed_rows now live s oid r :
  rows s !! oid = Some r ->
  is_open r = false ->
  oid ∉ order_id <$> live ->
  rows (sync_pending_orders now live s) !! oid = Some r.
Proof.
  intros Hr Hclosed Habs.
  rewrite sync_lookup_absent, Hr by exact Habs. simpl.
  unfold absent_row. now rewrite Hclosed.
Qed.

(** C3 (amended): a second pass with the same snapshot changes no order:
    the orders read back from the store (every column that mirrors an
    order field, keyed by order id) are the same after two passes as after
    one. *)
Theorem sync_idempotent_on_orders now1 now2 live s :
  get_pending_orders
    (sync_pending_orders now2 live (sync_pending_orders now1 live s)) =
  get_pending_orders (sync_pending_orders now1 live s).
Proof.
  apply map_eq. intros k. rewrite !sync_columns.
  destruct (find_last k live) as [o|] eqn:Hfind; [reflexivity|].
  apply find_last_None in Hfind.
  rewrite sync_lookup_absent by exact Hfind.
  destruct (rows s !! k) as [r|]; [|reflexivity]. simpl.
  unfold absent_row at 1. now rewrite absent_row_closed.
Qed.

End StorageFacts.


Section StorageExamples.
Import Types Storage Examples.


Lemma sync_leaves_closed_rows_witness :
  rows (sync_pending_orders 200%Z [order_12] store_two) !! "11" = Some row_11.
Proof.
  apply sync_leaves_closed_rows.
  - reflexivity.
  - reflexivity.
  - simpl. intros Hin. apply list_elem_of_singleton in Hin. discriminate.
Defined.

(** C3 as stated fails on the stored rows themselves: a second pass with
    the same snapshot, at the same clock reading, replaces the row of a
    live order by a row with a new [id], so the two store states differ. *)
Lemma sync_twice_store_counterexample :
  row_id <$> rows (sync_pending_orders 200%Z [order_12] store_empty) !! "12"
    = Some 1%Z /\
  row_id <$> rows (sync_pending_orders 200%Z [order_12]
                     (sync_pending_orders 200%Z [order_12] store_empty)) !! "12"
    = Some 2%Z /\
  sync_pending_orders 200%Z [order_12]
    (sync_pending_orders 200%Z [order_12] store_empty)
  <> sync_pending_orders 200%Z [order_12] store_empty.
Proof.
  split; [vm_compute; reflexivity|].
  split; [vm_compute; reflexivity|].
  intros Heq. apply (f_equal seq) in Heq. vm_compute in Heq. discriminate.
Qed.

End StorageExamples.


(** ** Connection pool *)

Section PoolFacts.
Import ConnectionPool.

Variable reachable : conn -> bool.

Lemma set_available_same (p : Pool) : set_available (available p) p = p.
Proof. now destruct p. Qed.

(** What [connect] leaves alone. *)
Lemma connect_frame (c : conn) (p : Pool) :
  let p' := snd (connect reachable c p) in
  connections p' = connections p /\ max_connections p' = max_connections p /\
  initialized p' = initialized p /\ available p' = available p /\
  in_use p' = in_use p /\ waited p' = waited p.
Proof.
  unfold connect. destruct (is_connected c p); [simpl; tauto|].
  destruct (reachable c); simpl; tauto.
Qed.

(** The checkout loop neither creates nor forgets a manager. *)
Lemma checkout_frame (timeout : Q) (queue : list conn) (p : Pool) :
  let p' := snd (checkout reachable timeout queue p) in
  connections p' = connections p /\ max_connections p' = max_connections p /\
  initialized p' = initialized p.
Proof.
  revert p. induction queue as [|c rest IH]; intros p; simpl; [tauto|].
  destruct (is_connected c (set_available rest p)); [simpl; tauto|].
  pose proof (connect_frame c (set_available rest p)) as Hc.
  destruct (connect reachable c (set_available rest p)) as [ok p1].
  simpl in Hc. destruct Hc as (Hconn & Hmax & Hinit & _).
  destruct ok; simpl.
  - rewrite Hconn, Hmax, Hinit. tauto.
  - specialize (IH p1). simpl in IH.
    rewrite Hconn, Hmax, Hinit in IH. exact IH.
Qed.

(** [n] rounds of the initialisation loop add at most [n] managers. *)
Lemma initialize_loop_frame (n : nat) (p : Pool) :
  let p' := initialize_loop reachable n p in
  (length (connections p') <= length (connections p) + n)%nat /\
  max_connections p' = max_connections p /\
  initialized p' = initialized p.
Proof.
  revert p. induction n as [|n IH]; intros p; simpl.
  - split; [lia | tauto].
  - unfold new_manager.
    pose proof (connect_frame (next_conn p) (set_next_conn (S (next_conn p)) p))
      as Hc.
    destruct (connect reachable (next_conn p) (set_next_conn (S (next_conn p)) p))
      as [ok p1].
    simpl in Hc. destruct Hc as (Hconn & Hmax & Hinit & _).
    destruct ok.
    + rewrite Hconn.
      match goal with
      | |- context [initialize_loop reachable n ?q] => specialize (IH q)
      end.
      simpl in IH. rewrite length_app, Hmax, Hinit in IH. simpl in IH.
      destruct IH as (Hlen & Hm & Hi). repeat split; [lia | exact Hm | exact Hi].
    + specialize (IH p1). simpl in IH. rewrite Hconn, Hmax, Hinit in IH.
      destruct IH as (Hlen & Hm & Hi). repeat split; [lia | exact Hm | exact Hi].
Qed.

Lemma initialize_bounded (p : Pool) :
  pool_bounded p ->
  pool_bounded (snd (initialize reachable p)) /\
  max_connections (snd (initialize reachable p)) = max_connections p.
Proof.
  intros [Hlen Hempty]. unfold initialize.
  destruct (initialized p) eqn:Hinit.
  { simpl. split; [|reflexivity]. split; [exact Hlen|].
    rewrite Hinit. discriminate. }
  pose proof (initialize_loop_frame (max_connections p) p) as Hloop.
  simpl in Hloop. destruct Hloop as (Hl & Hm & Hi).
  rewrite (Hempty eq_refl) in Hl. simpl in Hl.
  destruct (connections (initialize_loop reachable (max_connections p) p))
    as [|c cs] eqn:Hcs; simpl.
  - split; [|exact Hm]. split; [rewrite Hcs; simpl; lia | intros _; exact Hcs].
  - split; [|exact Hm]. split; [|discriminate].
    simpl. rewrite Hcs, Hm. exact Hl.
Qed.

(** C6: on an initialised pool whose queue of available connections is
    empty, a checkout waits out the timeout and raises [TimeoutError]: the
    call returns, the time spent blocked is exactly the timeout, and the
    pool is otherwise untouched.  On every pool, a checkout leaves the
    configured maximum as it is and never brings the number of managers
    above it. *)
Theorem get_connection_times_out_and_stays_bounded (timeout : Q) (p : Pool) :
  (initialized p = true -> available p = [] ->
   get_connection reachable timeout p =
   (Raise (TimeoutError timeout), set_waited (waited p + timeout) p)) /\
  (pool_bounded p ->
   pool_bounded (snd (get_connection reachable timeout p)) /\
   max_connections (snd (get_connection reachable timeout p))
   = max_connections p).
Proof.
  split.
  - intros Hinit Hempty. unfold get_connection. rewrite Hinit, Hempty. simpl.
    rewrite <- Hempty at 1. now rewrite set_available_same.
  - intros Hb. unfold get_connection.
    destruct (initialized p) eqn:Hinit.
    + pose proof (checkout_frame timeout (available p) p) as Hc. simpl in Hc.
      destruct Hc as (Hconn & Hmax & Hi).
      destruct Hb as [Hlen Hempty].
      split; [|exact Hmax]. split.
      * rewrite Hconn, Hmax. exact Hlen.
      * rewrite Hi, Hinit. discriminate.
    + pose proof (initialize_bounded p Hb) as [Hb1 Hm1].
      destruct (initialize reachable p) as [[[]|e] p1]; simpl in *.
      * pose proof (checkout_frame timeout (available p1) p1) as Hc.
        simpl in Hc. destruct Hc as (Hconn & Hmax & Hi).
        destruct Hb1 as [Hlen Hempty].
        split; [|now rewrite Hmax]. split.
        -- rewrite Hconn, Hmax. exact Hlen.
        -- rewrite Hconn, Hi. exact Hempty.
      * split; [exact Hb1 | exact Hm1].
Qed.

End PoolFacts.

Section PoolExamples.
Import ConnectionPool Examples.

Lemma get_connection_times_out_and_stays_bounded_witness :
  get_connection always_reachable 1 pool_exhausted =
    (Raise (TimeoutError 1), set_waited (0 + 1) pool_exhausted) /\
  pool_bounded (snd (get_connection always_reachable 1 pool_exhausted)).
Proof.
  destruct (get_connection_times_out_and_stays_bounded always_reachable 1
              pool_exhausted) as [Htimeout Hbounded].
  split.
  - apply Htimeout; reflexivity.
  - apply Hbounded. split; [simpl; lia | discriminate].
Defined.

End PoolExamples.


(** ** Order validation *)

Section ValidatorFacts.
Import Validators.
Context `{Runtime}.

Lemma checked_float_ok (order : gmap string value) (k : string)
      (ok : Q -> bool) (label : string) (v : value) (x : Q) :
  order !! k = Some v -> py_float v = Some x -> ok x = true ->
  checked_float order k ok label = Ok x.
Proof.
  intros Hk Hv Hok. unfold checked_float, getitem. rewrite Hk. simpl.
  now rewrite Hv, Hok.
Qed.

Lemma absent_false (order : gmap string value) (k : string) (v : value) :
  order !! k = Some v -> v <> VNone -> absent order k = false.
Proof. intros Hk Hv. unfold absent. rewrite Hk. now destruct v. Qed.

(** The trailing-stop block of [validate_order] lets an order through
    that sets both [trail_percent] and [trail_amount], whatever else the
    order holds: it checks that at least one is set, and each one that is
    set for its range. *)
Lemma add_trail_accepts_both (order normalized : gmap string value)
      (vp va : value) (p a : Q) :
  order !! "trail_percent" = Some vp -> vp <> VNone -> py_float vp = Some p ->
  0 < p -> p <= 100 ->
  order !! "trail_amount" = Some va -> va <> VNone -> py_float va = Some a ->
  0 < a ->
  add_trail order normalized "TRAIL" =
  Ok (<["trail_amount" := VFloat a]> (<["trail_percent" := VFloat p]> normalized)).
Proof.
  intros Hp Hvp Hfp Hp0 Hp100 Ha Hva Hfa Ha0.
  unfold add_trail. simpl.
  rewrite (absent_false _ _ _ Hp Hvp), (absent_false _ _ _ Ha Hva). simpl.
  rewrite (checked_float_ok _ _ _ _ vp p Hp Hfp).
  - simpl. rewrite (checked_float_ok _ _ _ _ va a Ha Hfa); [reflexivity|].
    unfold positive. apply negb_true_iff, not_true_iff_false.
    rewrite Qle_bool_iff. now apply Qlt_not_le.
  - apply negb_true_iff, orb_false_iff. split.
    + apply not_true_iff_false. rewrite Qle_bool_iff. now apply Qlt_not_le.
    + now apply gtb_false_iff.
Qed.

(** The block rejects an order that sets neither. *)
Lemma add_trail_rejects_neither (order normalized : gmap string value) :
  absent order "trail_percent" = true -> absent order "trail_amount" = true ->
  add_trail order normalized "TRAIL" =
  Raise (ValueError "TRAIL order requires either trail_percent or trail_amount").
Proof. intros Hp Ha. unfold add_trail. simpl. now rewrite Hp, Ha. Qed.

(** C1, at the failing input: [validate_order] returns the normalised
    order for a TRAIL order that sets both [trail_percent] and
    [trail_amount], keeping both; [Broker.validate_ibkr_order_type]
    accepts the same parameters. *)
Theorem validate_order_trail_both_modes :
  validate_order Examples.order_trail_both = Ok Examples.normalized_trail_both /\
  Broker.validate_ibkr_order_type "TRAIL" Examples.order_trail_both = true.
Proof. split; vm_compute; reflexivity. Qed.

End ValidatorFacts.

Section OrderValidatorFacts.
Import OrderValidator.

Lemma append_if_length (c : bool) (msg : string) (errors : list string) :
  (length errors <= length (append_if c msg errors))%nat.
Proof.
  unfold append_if. destruct c; [|lia]. rewrite length_app. simpl. lia.
Qed.

Lemma check_market_length (order : Order) (errors : list string) :
  (length errors <= length (check_market order errors))%nat.
Proof.
  unfold check_market. case_bool_decide; [|lia].
  etransitivity; [|apply append_if_length]. apply append_if_length.
Qed.

(** On a trailing-stop order whose two trailing fields are both set or both
    unset, [check_trailing] adds an error. *)
Lemma check_trailing_adds (order : Order) (errors : list string) :
  order_type order = TRAILING_STOP ->
  truthy (trail_amount order) = truthy (trail_percent order) ->
  (length errors < length (check_trailing order errors))%nat.
Proof.
  intros Htype Hsame. unfold check_trailing.
  rewrite bool_decide_eq_true_2 by exact Htype.
  set (e1 := append_if (negb (truthy (trail_amount order)) &&
                        negb (truthy (trail_percent order))) _ errors).
  set (e2 := append_if (truthy (trail_amount order) &&
                        truthy (trail_percent order)) _ e1).
  assert (H2 : (length errors < length e2)%nat).
  { unfold e2, e1. rewrite <- Hsame.
    destruct (truthy (trail_amount order)); unfold append_if; simpl;
      rewrite length_app; simpl; lia. }
  assert (H3 : forall x (m1 m2 : string) (b1 b2 : Q -> bool) (e : list string),
    (length e <= length
       match x with
       | Some a =>
         if Py.truthy a
         then append_if (b1 a) m1 (append_if (b2 a) m2 e)
         else e
       | None => e
       end)%nat).
  { intros [a|] m1 m2 b1 b2 e; [|lia].
    destruct (Py.truthy a); [|lia].
    etransitivity; [|apply append_if_length]. apply append_if_length. }
  eapply Nat.lt_le_trans; [exact H2|].
  etransitivity; [|apply (H3 (trail_percent order))].
  apply (H3 (trail_amount order)).
Qed.

(** The sibling validator does enforce "exactly one": a trailing-stop
    order that [validate] accepts has exactly one of [trail_amount] and
    [trail_percent] set. *)
Lemma validate_trailing_exactly_one (order : Order) :
  order_type order = TRAILING_STOP ->
  valid order = true ->
  xorb (truthy (trail_amount order)) (truthy (trail_percent order)) = true.
Proof.
  intros Htype Hvalid.
  destruct (xorb _ _) eqn:Hx; [reflexivity|]. exfalso.
  apply xorb_eq in Hx.
  unfold valid, validate, check_limit, check_stop, check_stop_limit in Hvalid.
  rewrite Htype in Hvalid.
  rewrite !bool_decide_eq_false_2 in Hvalid
    by (try discriminate; rewrite !elem_of_cons, elem_of_nil;
        intros [? | [? | []]]; discriminate).
  apply Nat.eqb_eq in Hvalid.
  pose proof (check_market_length order) as Hm.
  pose proof (check_trailing_adds order) as Ht.
  match type of Hvalid with
  | length (check_market _ (check_trailing _ ?e)) = _ =>
    specialize (Hm (check_trailing order e)); specialize (Ht e Htype Hx)
  end.
  lia.
Qed.

Lemma validate_rejects_both :
  validate Examples.next_order_trail_both =
  Ok (false, ["Trailing stop cannot have both amount and percent"%string]).
Proof. reflexivity. Qed.

End OrderValidatorFacts.


(** ** Broker health counters *)

Section BrokerFacts.
Import Broker.

Implicit Types (gw : Gateway) (b : Broker).

(** C8, where the code falls short of it: [place_order] and
    [cancel_order] leave the broker's counters as they were, whether the
    gateway call succeeds or raises, so the health report does not see
    them.  On a connected broker with no request so far, placing an order
    that the gateway accepts (id 7) or that raises leaves
    [total_requests = 0] and [failed_requests = 0]. *)
Theorem place_and_cancel_order_untracked gw b (symbol action order_type : string)
        (quantity : Z) (limit_price : option Q) (order_id : string) :
  snd (place_order gw symbol action quantity order_type limit_price b) = b /\
  snd (cancel_order gw order_id b) = b /\
  place_order Examples.gateway_accepting "AAPL" "BUY" 100 "MKT" None
              Examples.broker_connected
  = (Some "7"%string, Examples.broker_connected) /\
  place_order Examples.gateway_failing "AAPL" "BUY" 100 "MKT" None
              Examples.broker_connected
  = (None, Examples.broker_connected) /\
  total_requests (get_connection_health Examples.broker_connected) = 0%Z /\
  failed_requests (get_connection_health Examples.broker_connected) = 0%Z.
Proof.
  split; [|split; [|repeat split]].
  - unfold place_order. destruct (negb (is_connected gw b)); [reflexivity|].
    destruct (ib_placeOrder gw 0) as [oid|e]; [|reflexivity].
    now destruct (oid =? 0)%Z.
  - unfold cancel_order. destruct (negb (is_connected gw b)); [reflexivity|].
    destruct (ib_trades gw) as [ts|e]; [|reflexivity].
    destruct (List.find _ ts) as [t|]; [|reflexivity].
    now destruct (ib_cancelOrder gw t).
Qed.

(** The sibling calls do count: [modify_order] and [place_bracket_order]
    add one to the total on every call and one to the failures exactly
    when they fail. *)
Lemma modify_order_tracked gw now (order_id : string) b :
  let '(ok, b') := modify_order gw now order_id b in
  total_request_count b' = (total_request_count b + 1)%Z /\
  failed_request_count b' =
    (failed_request_count b + if ok then 0 else 1)%Z.
Proof.
  unfold modify_order. destruct (negb (is_connected gw b)); [simpl; lia|].
  destruct (ib_openTrades gw) as [ts|e]; [|simpl; lia].
  destruct (List.find _ ts) as [t|]; [|simpl; lia].
  destruct (ib_placeOrder gw t); simpl; lia.
Qed.

Lemma place_bracket_order_tracked gw now b :
  let '(res, b') := place_bracket_order gw now b in
  total_request_count b' = (total_request_count b + 1)%Z /\
  failed_request_count b' =
    (failed_request_count b + if res is inl _ then 0 else 1)%Z.
Proof.
  unfold place_bracket_order.
  destruct (negb (is_connected gw b)); [simpl; lia|].
  destruct (ib_getReqId gw) as [parent|e]; [|simpl; lia].
  destruct (ib_placeOrder gw parent); [|simpl; lia].
  destruct (ib_placeOrder gw (parent + 1)); [|simpl; lia].
  destruct (ib_placeOrder gw (parent + 2)); simpl; lia.
Qed.

(** The open-order query counts whenever it reaches the gateway. *)
Lemma get_open_orders_tracked gw now b :
  is_connected gw b = true ->
  let b' := snd (get_open_orders gw now b) in
  total_request_count b' = (total_request_count b + 1)%Z /\
  failed_request_count b' =
    (failed_request_count b +
     if ib_openTrades gw is Returns _ then 0 else 1)%Z.
Proof.
  intros Hc. unfold get_open_orders. rewrite Hc. simpl.
  destruct (ib_openTrades gw); simpl; lia.
Qed.

(** The position query counts a failure and a non-empty answer; an empty
    answer returns before the success is recorded. *)
Lemma get_positions_tracked gw now b :
  is_connected gw b = true -> connection_ready b = true ->
  let b' := snd (get_positions gw now b) in
  match ib_positions gw with
  | Returns [] => b' = b
  | Returns (_ :: _) =>
    total_request_count b' = (total_request_count b + 1)%Z /\
    failed_request_count b' = failed_request_count b
  | Throws _ =>
    total_request_count b' = (total_request_count b + 1)%Z /\
    failed_request_count b' = (failed_request_count b + 1)%Z
  end.
Proof.
  intros Hc Hr. unfold get_positions. rewrite Hc, Hr. simpl.
  destruct (ib_positions gw) as [[|x xs]|e]; simpl; auto.
Qed.

(** The health report exposes the two counters and, once a request has
    been counted, the ratio (total - failed) / total. *)
Lemma health_success_rate b :
  total_requests (get_connection_health b) = total_request_count b /\
  failed_requests (get_connection_health b) = failed_request_count b /\
  ((0 < total_request_count b)%Z ->
   success_rate (get_connection_health b) =
   inject_Z (total_request_count b - failed_request_count b)
   / inject_Z (total_request_count b)) /\
  ((total_request_count b <= 0)%Z ->
   success_rate (get_connection_health b) = 0).
Proof.
  unfold get_connection_health. simpl. repeat split.
  - intros Hpos. apply Z.ltb_lt in Hpos. now rewrite Hpos.
  - intros Hle. apply Z.ltb_ge in Hle. now rewrite Hle.
Qed.

End BrokerFacts.

(** ** Order store: what a pass guarantees beyond the rows it touches *)

Section StorageOperations.
Import Types Storage.

Implicit Types (s : Store) (r : Row) (o : PendingOrder) (k oid : string)
         (live : list PendingOrder) (now : datetime).

(** X1: after a pass every row that is still open belongs to an order of
    the snapshot: nothing outside the snapshot is left working. *)
Theorem sync_open_rows_in_snapshot now live s k r :
  rows (sync_pending_orders now live s) !! k = Some r ->
  is_open r = true ->
  k ∈ order_id <$> live.
Proof.
  intros Hr Hopen.
  destruct (decide (k ∈ order_id <$> live)) as [Hin|Hout]; [exact Hin|].
  exfalso. rewrite sync_lookup_absent in Hr by exact Hout.
  destruct (rows s !! k) as [r0|]; [|discriminate].
  simpl in Hr. injection Hr as <-.
  now rewrite absent_row_closed in Hopen.
Qed.

(** X2: a pass deletes no order: the order ids of the table afterwards are
    those it held before together with those of the snapshot. *)
Theorem sync_keeps_every_order now live s :
  dom (rows (sync_pending_orders now live s)) =
  dom (rows s) ∪ live_order_ids live.
Proof.
  apply set_eq. intros k.
  rewrite elem_of_union, !elem_of_dom, elem_of_live_order_ids.
  pose proof (sync_columns now live s k) as Hc.
  unfold get_pending_orders in Hc. rewrite lookup_fmap in Hc.
  destruct (find_last k live) as [o|] eqn:Hfind.
  - split.
    + intros _. right.
      destruct (decide (k ∈ order_id <$> live)) as [Hin|Hout]; [exact Hin|].
      apply find_last_None in Hout. congruence.
    + intros _. destruct (rows (sync_pending_orders now live s) !! k);
        [eauto | discriminate].
  - apply find_last_None in Hfind.
    rewrite sync_lookup_absent by exact Hfind.
    rewrite fmap_is_Some. tauto.
Qed.


(** *** Integrity of the table *)

Lemma store_wf_map (f : string -> Row -> Row) s s' :
  (forall k r, row_id (f k r) = row_id r /\
               order_id (columns (f k r)) = order_id (columns r)) ->
  (forall k, rows s' !! k = f k <$> rows s !! k) ->
  seq s' = seq s ->
  store_wf s -> store_wf s'.
Proof.
  intros Hf Hrows Hseq (Hpos & Hkey & Huniq). split; [|split].
  - now rewrite Hseq.
  - intros k r' Hr'. rewrite Hrows in Hr'.
    destruct (rows s !! k) as [r|] eqn:Hr; [|discriminate].
    simpl in Hr'. injection Hr' as <-.
    destruct (Hf k r) as [-> ->]. rewrite Hseq. now apply Hkey.
  - intros k1 k2 r1' r2' H1 H2 Heq. rewrite Hrows in H1, H2.
    destruct (rows s !! k1) as [r1|] eqn:Hr1; [|discriminate].
    destruct (rows s !! k2) as [r2|] eqn:Hr2; [|discriminate].
    simpl in H1, H2. injection H1 as <-. injection H2 as <-.
    destruct (Hf k1 r1) as [E1 _]. destruct (Hf k2 r2) as [E2 _].
    rewrite E1, E2 in Heq. eapply Huniq; eauto.
Qed.

Lemma filled_row_ids now r :
  row_id (filled_row now r) = row_id r /\
  order_id (columns (filled_row now r)) = order_id (columns r).
Proof. unfold filled_row. now destruct (not_terminal r). Qed.

Lemma mark_all_wf now (ids : list string) s :
  store_wf s -> store_wf (foldl (mark_filled now) s ids).
Proof.
  apply (store_wf_map
           (fun k r => if decide (k ∈ ids) then filled_row now r else r)).
  - intros k r. destruct (decide (k ∈ ids)); [apply filled_row_ids | auto].
  - intros k. rewrite mark_all_lookup.
    destruct (decide (k ∈ ids)); [reflexivity|].
    now destruct (rows s !! k).
  - apply mark_all_seq.
Qed.

Lemma insert_or_replace_wf now s o :
  store_wf s -> store_wf (insert_or_replace now s o).
Proof.
  intros (Hpos & Hkey & Huniq). split; [|split].
  - simpl. lia.
  - intros k r Hr. rewrite insert_or_replace_lookup in Hr.
    destruct (decide (k = order_id o)) as [->|Hne].
    + injection Hr as <-. simpl. split; [reflexivity | lia].
    + destruct (Hkey _ _ Hr) as [? ?]. simpl. split; [assumption | lia].
  - intros k1 k2 r1 r2 H1 H2 Heq.
    rewrite insert_or_replace_lookup in H1, H2.
    destruct (decide (k1 = order_id o)) as [->|Hne1],
             (decide (k2 = order_id o)) as [->|Hne2]; try reflexivity.
    + injection H1 as <-. simpl in Heq.
      destruct (Hkey _ _ H2) as [_ ?]. lia.
    + injection H2 as <-. simpl in Heq.
      destruct (Hkey _ _ H1) as [_ ?]. lia.
    + eapply Huniq; eauto.
Qed.

Lemma upsert_all_wf now live s :
  store_wf s -> store_wf (foldl (insert_or_replace now) s live).
Proof.
  revert s. induction live as [|o live IH]; intros s Hwf; simpl; [exact Hwf|].
  apply IH. now apply insert_or_replace_wf.
Qed.

Lemma set_status_order_id (st : string) o :
  order_id (set_status st o) = order_id o.
Proof. reflexivity. Qed.

(** X4: the integrity of the table (keys equal to the [order_id] column,
    row ids positive, distinct and bounded by the [AUTOINCREMENT] counter)
    holds for the empty table and is kept by a reconcile pass, a save, a
    delete and a status update. *)
Theorem run_preserves_store_wf (op : operation) s :
  store_wf empty_store /\
  (store_wf s -> store_wf (run op s)).
Proof.
  split.
  { split; [simpl; lia|].
    split; [intros k r Hr | intros k1 k2 r1 r2 Hr _ _];
      simpl in Hr; rewrite lookup_empty in Hr; discriminate. }
  intros Hwf. destruct op as [now live | now order | oid | now oid st filled avg];
    simpl.
  - unfold sync_pending_orders. now apply upsert_all_wf, mark_all_wf.
  - unfold save_pending_order.
    destruct (rows s !! order_id order); [exact Hwf|].
    apply (insert_or_replace_wf now s order Hwf).
  - destruct Hwf as (Hpos & Hkey & Huniq). unfold delete_pending_order.
    split; [exact Hpos|]. simpl. split.
    + intros k r Hr. apply lookup_delete_Some in Hr as [_ Hr]. now apply Hkey.
    + intros k1 k2 r1 r2 H1 H2.
      apply lookup_delete_Some in H1 as [_ H1].
      apply lookup_delete_Some in H2 as [_ H2]. eauto.
  - unfold update_order_status.
    destruct (rows s !! oid) as [r0|] eqn:Hr0; [|exact Hwf].
    apply (store_wf_map
             (fun k r =>
                if decide (k = oid)
                then {| row_id := row_id r;
                        columns := match filled, avg with
                                   | Some f, Some a =>
                                     set_fill f a (set_status st (columns r))
                                   | _, _ => set_status st (columns r)
                                   end;
                        last_updated := now |}
                else r) s); [| |reflexivity|exact Hwf].
    + intros k r. destruct (decide (k = oid)); [|auto].
      simpl. split; [reflexivity|]. now destruct filled, avg.
    + intros k. simpl. destruct (decide (k = oid)) as [->|Hne].
      * rewrite lookup_insert_eq, Hr0. reflexivity.
      * rewrite lookup_insert_ne by congruence. now destruct (rows s !! k).
Qed.


(** X6: deleting an order that was just saved under a free id gives back
    the orders the table held before. *)
Theorem delete_after_save now o s :
  rows s !! order_id o = None ->
  get_pending_orders
    (delete_pending_order (order_id o) (snd (save_pending_order now o s)))
  = get_pending_orders s.
Proof.
  intros Hfree. unfold save_pending_order, delete_pending_order,
                  get_pending_orders.
  rewrite Hfree. simpl. rewrite delete_insert_eq.
  now rewrite delete_id.
Qed.

(** X7: a status update that is given a filled quantity but no average
    price (or the reverse) writes the status only: the stored filled
    quantity and average fill price stay as they were.  Other orders are
    not touched, and an unknown id changes nothing. *)
Theorem update_order_status_partial_fill now oid st filled avg s :
  (filled = None \/ avg = None) ->
  (forall r, rows s !! oid = Some r ->
     get_pending_orders (update_order_status now oid st filled avg s) !! oid
     = Some (set_status st (columns r)) /\
     filled_quantity (set_status st (columns r)) = filled_quantity (columns r) /\
     avg_fill_price (set_status st (columns r)) = avg_fill_price (columns r)) /\
  (forall k, k <> oid ->
     rows (update_order_status now oid st filled avg s) !! k = rows s !! k) /\
  (rows s !! oid = None ->
   update_order_status now oid st filled avg s = s).
Proof.
  intros Hpartial. unfold update_order_status, get_pending_orders.
  split; [|split].
  - intros r Hr. rewrite Hr. simpl. rewrite lookup_fmap, lookup_insert_eq.
    simpl. split; [|split; reflexivity].
    destruct Hpartial as [-> | ->]; [reflexivity | now destruct filled].
  - intros k Hne. destruct (rows s !! oid); [|reflexivity].
    simpl. now rewrite lookup_insert_ne by congruence.
  - intros Hnone. now rewrite Hnone.
Qed.

(** X8: an order marked [Cancelled] through [update_order_status] (as the
    cancel route does) and absent from the next snapshot stays
    [Cancelled]: the pass does not turn it into [Filled]. *)
Theorem cancel_then_sync_stays_cancelled now1 now2 oid r live s :
  rows s !! oid = Some r ->
  oid ∉ order_id <$> live ->
  get_pending_orders
    (sync_pending_orders now2 live
       (update_order_status now1 oid "Cancelled" None None s)) !! oid
  = Some (set_status "Cancelled" (columns r)).
Proof.
  intros Hr Habs. unfold get_pending_orders. rewrite lookup_fmap.
  rewrite sync_lookup_absent by exact Habs.
  unfold update_order_status. rewrite Hr. simpl.
  rewrite lookup_insert_eq. reflexivity.
Qed.

End StorageOperations.

Section StorageOperationsExamples.
Import Types Storage Examples.

Lemma sync_open_rows_in_snapshot_witness :
  "12" ∈ order_id <$> [order_12].
Proof.
  apply (sync_open_rows_in_snapshot 200%Z [order_12] store_two "12"
           {| row_id := 3; columns := order_12; last_updated := 200%Z |}).
  - vm_compute. reflexivity.
  - vm_compute. reflexivity.
Defined.


Lemma run_preserves_store_wf_witness :
  store_wf empty_store /\
  store_wf (run (Sync 200%Z [order_12]) empty_store).
Proof.
  destruct (run_preserves_store_wf (Sync 200%Z [order_12]) empty_store)
    as [Hempty Hrun].
  split; [exact Hempty | exact (Hrun Hempty)].
Defined.


Lemma delete_after_save_witness :
  get_pending_orders
    (delete_pending_order (order_id order_12)
       (snd (save_pending_order 200%Z order_12 store_two)))
  = get_pending_orders store_two.
Proof. apply delete_after_save. reflexivity. Defined.

Lemma update_order_status_partial_fill_witness :
  get_pending_orders
    (update_order_status 200%Z "10" "PartiallyFilled" (Some 50%Z) None store_two)
    !! "10"
  = Some (set_status "PartiallyFilled" order_10) /\
  filled_quantity (set_status "PartiallyFilled" order_10) = 0%Z.
Proof.
  destruct (update_order_status_partial_fill 200%Z "10" "PartiallyFilled"
              (Some 50%Z) None store_two (or_intror eq_refl))
    as (Hrow & _ & _).
  destruct (Hrow row_10 eq_refl) as (Hget & Hfilled & _).
  split; [exact Hget | exact Hfilled].
Defined.

Lemma cancel_then_sync_stays_cancelled_witness :
  get_pending_orders
    (sync_pending_orders 200%Z [order_12]
       (update_order_status 150%Z "10" "Cancelled" None None store_two)) !! "10"
  = Some (set_status "Cancelled" order_10).
Proof.
  apply (cancel_then_sync_stays_cancelled 150%Z 200%Z "10" row_10
           [order_12] store_two).
  - reflexivity.
  - simpl. intros Hin. apply list_elem_of_singleton in Hin. discriminate.
Defined.

End StorageOperationsExamples.

(** ** Broker: live orders and health counters *)

Section BrokerOrders.
Import Types Storage Broker.

Implicit Types (gw : Gateway) (b : Broker) (now : datetime) (trade : IBTrade).

Lemma int_of_whole (x : Q) (z : Z) : x == inject_Z z -> Py.int x = z.
Proof.
  destruct x as [n d]. unfold Qeq, Py.int. simpl. intros E.
  rewrite Z.mul_1_r in E. rewrite E. apply Z.quot_mul. lia.
Qed.

Lemma int_or_zero_whole (x : Q) (z : Z) :
  x == inject_Z z -> int_or_zero x = z.
Proof.
  intros E. unfold int_or_zero. destruct (Py.truthy x) eqn:T.
  - now apply int_of_whole.
  - apply truthy_false_iff in T. rewrite T in E.
    unfold Qeq in E. simpl in E. lia.
Qed.

Lemma int_or_zero_pos_floor (x : Q) : 0 < x -> int_or_zero x = Qfloor x.
Proof.
  intros Hpos. unfold int_or_zero.
  assert (T : Py.truthy x = true).
  { apply truthy_true_iff. intros E. rewrite E in Hpos.
    now apply Qlt_irrefl in Hpos. }
  rewrite T. apply int_nonneg_floor. now apply Qlt_le_weak.
Qed.

(** The floor of a whole number less a fraction that is not whole. *)
Lemma floor_whole_minus (t : Z) (x : Q) :
  (forall z, ~ x == inject_Z z) ->
  Qfloor (inject_Z t - x) = (t - Qfloor x - 1)%Z.
Proof.
  destruct x as [n d]. intros Hfrac.
  assert (Hmod : (n mod Z.pos d <> 0)%Z).
  { intros Hm. apply (Hfrac (n / Z.pos d)%Z). unfold Qeq. simpl.
    rewrite Z.mul_1_r.
    pose proof (Z.div_mod n (Z.pos d) ltac:(lia)) as Hdm. lia. }
  unfold Qfloor, Qminus, Qplus, Qopp, inject_Z. simpl.
  rewrite Pos.mul_1_l.
  replace (t * Z.pos d + - n * 1)%Z with (- n + t * Z.pos d)%Z by lia.
  rewrite Z.div_add by lia.
  rewrite Z.div_opp_l_nz by (try exact Hmod; lia). lia.
Qed.

(** X9: in the order built from a gateway trade, filled plus remaining
    quantity equals the order quantity whenever the fill is a whole
    number; for a fill that is not whole and lies strictly between zero
    and the order quantity, the two truncations lose one unit. *)
Theorem pending_order_fill_arithmetic now trade :
  let o := pending_order_of_trade now trade in
  let fill := filled (trade_orderStatus trade) in
  (forall f : Z, fill == inject_Z f ->
     filled_quantity o = f /\
     (filled_quantity o + remaining_quantity o = quantity o)%Z) /\
  ((forall z, ~ fill == inject_Z z) ->
   0 < fill -> fill < inject_Z (quantity o) ->
   (filled_quantity o + remaining_quantity o = quantity o - 1)%Z).
Proof.
  unfold pending_order_of_trade.
  destruct (match secType (trade_contract trade) with
            | Some sec => _ | None => _ end) as [[[asset opt] strk] expi].
  simpl. split.
  - intros f Hf. rewrite (int_or_zero_whole _ f Hf).
    split; [reflexivity|].
    rewrite (int_or_zero_whole _ (totalQuantity (trade_order trade) - f)).
    + lia.
    + rewrite Hf. unfold Qeq. simpl. lia.
  - intros Hfrac Hpos Hlt.
    rewrite (int_or_zero_pos_floor _ Hpos).
    rewrite int_or_zero_pos_floor.
    + rewrite floor_whole_minus by exact Hfrac. lia.
    + unfold Qminus. now apply Qlt_minus_iff in Hlt.
Qed.

Lemma find_last_Some k (live : list PendingOrder) o :
  find_last k live = Some o -> o ∈ live /\ order_id o = k.
Proof.
  induction live as [|o1 live IH]; simpl; [discriminate|].
  destruct (find_last k live) as [o'|].
  - intros E. injection E as ->. destruct (IH eq_refl) as [Hin Hid].
    split; [now apply list_elem_of_further | exact Hid].
  - case_bool_decide as Hid; [|discriminate].
    intros E. injection E as <-. split; [apply list_elem_of_here | exact Hid].
Qed.

(** X10: the orders [get_enhanced_open_orders] returns carry no strategy
    id and no notes, and a reconcile pass writes them as they come: after
    the pass the row of every live order has [strategy_id] and [notes]
    empty, whatever link to a strategy the row held before. *)
Theorem sync_live_orders_lose_strategy gw open_trades now now' b
        (s : Store) (k : string) :
  let live := fst (get_enhanced_open_orders gw open_trades now b) in
  k ∈ order_id <$> live ->
  exists r, rows (sync_pending_orders now' live s) !! k = Some r /\
            strategy_id (columns r) = None /\ notes (columns r) = None.
Proof.
  intros live Hk.
  pose proof (sync_columns now' live s k) as Hc.
  destruct (find_last k live) as [o|] eqn:Hfind.
  - unfold get_pending_orders in Hc. rewrite lookup_fmap in Hc.
    destruct (rows (sync_pending_orders now' live s) !! k) as [r|];
      [|discriminate].
    exists r. split; [reflexivity|]. simpl in Hc. injection Hc as ->.
    apply find_last_Some in Hfind as [Hin _].
    unfold live, get_enhanced_open_orders in Hin.
    destruct (negb (is_connected gw b)); [now apply elem_of_nil in Hin|].
    destruct open_trades as [trades|e]; [|now apply elem_of_nil in Hin].
    simpl in Hin. apply list_elem_of_fmap in Hin as (trade & -> & _).
    unfold pending_order_of_trade.
    destruct (match secType (trade_contract trade) with
              | Some sec => _ | None => _ end) as [[[asset opt] strk] expi].
    split; reflexivity.
  - apply find_last_None in Hfind. contradiction.
Qed.

(** X11: when the broker is not connected, or the gateway query raises,
    [get_enhanced_open_orders] returns the empty list, and a reconcile
    pass fed with it records every open order of the table as [Filled]. *)
Theorem sync_after_failed_query gw open_trades now now' b (s : Store) :
  is_connected gw b = false \/ (exists e, open_trades = Throws e) ->
  let live := fst (get_enhanced_open_orders gw open_trades now b) in
  live = [] /\
  forall k r, rows s !! k = Some r -> is_open r = true ->
    get_pending_orders (sync_pending_orders now' live s) !! k
    = Some (set_status "Filled" (columns r)).
Proof.
  intros Hdown live.
  assert (Hlive : live = []).
  { unfold live, get_enhanced_open_orders.
    destruct Hdown as [-> | [e ->]]; [reflexivity|].
    now destruct (negb (is_connected gw b)). }
  split; [exact Hlive|]. intros k r Hr Hopen. rewrite Hlive.
  unfold get_pending_orders. rewrite lookup_fmap.
  rewrite sync_lookup_absent by apply not_elem_of_nil.
  rewrite Hr. simpl. unfold absent_row, filled_row.
  now rewrite Hopen, (is_open_not_terminal r Hopen).
Qed.

Lemma perform_cases gw now (c : call) b :
  perform gw now c b = b \/
  perform gw now c b = _track_request_success now b \/
  perform gw now c b = _track_request_failure b.
Proof.
  destruct c; simpl.
  - unfold get_positions. destruct (negb (is_connected gw b)); [auto|].
    destruct (negb (connection_ready b)); [auto|].
    destruct (ib_positions gw) as [[|x xs]|e]; simpl; auto.
  - left. unfold place_order. destruct (negb (is_connected gw b)); [auto|].
    destruct (ib_placeOrder gw 0) as [oid|e]; [|auto].
    now destruct (oid =? 0)%Z.
  - left. unfold cancel_order. destruct (negb (is_connected gw b)); [auto|].
    destruct (ib_trades gw) as [ts|e]; [|auto].
    destruct (List.find _ ts) as [t|]; [|auto].
    now destruct (ib_cancelOrder gw t).
  - unfold get_open_orders. destruct (negb (is_connected gw b)); [auto|].
    destruct (ib_openTrades gw); simpl; auto.
  - unfold get_enhanced_open_orders.
    destruct (negb (is_connected gw b)); [auto|].
    destruct open_trades; simpl; auto.
  - unfold modify_order. destruct (negb (is_connected gw b)); [auto|].
    destruct (ib_openTrades gw) as [ts|e]; [|auto].
    destruct (List.find _ ts) as [t|]; [|auto].
    destruct (ib_placeOrder gw t); simpl; auto.
  - unfold place_bracket_order. destruct (negb (is_connected gw b)); [auto|].
    destruct (ib_getReqId gw) as [parent|e]; [|auto].
    destruct (ib_placeOrder gw parent); [|auto].
    destruct (ib_placeOrder gw (parent + 1)); [|auto].
    destruct (ib_placeOrder gw (parent + 2)); simpl; auto.
Qed.

Lemma success_rate_bounds b :
  counters_ok b ->
  0 <= success_rate (get_connection_health b) /\
  success_rate (get_connection_health b) <= 1.
Proof.
  unfold counters_ok, get_connection_health. simpl. intros [Hf Ht].
  destruct (0 <? total_request_count b)%Z eqn:Hpos.
  - apply Z.ltb_lt in Hpos.
    assert (Hq : 0 < inject_Z (total_request_count b)).
    { unfold Qlt. simpl. lia. }
    split.
    + apply Qle_shift_div_l; [exact Hq|]. rewrite Qmult_0_l.
      unfold Qle. simpl. lia.
    + apply Qle_shift_div_r; [exact Hq|]. rewrite Qmult_1_l.
      unfold Qle. simpl. lia.
  - split; [apply Qle_refl | discriminate].
Qed.

(** X12: the health counters stay consistent.  A new broker has
    [0 <= failed <= total]; every call keeps it so, raises the total by at
    most one and never lowers either counter; hence the reported success
    rate always lies between 0 and 1. *)
Theorem counters_stay_consistent gw now (c : call) b (cid : option Z) :
  counters_ok (init cid) /\
  (counters_ok b ->
   counters_ok (perform gw now c b) /\
   (total_request_count b <= total_request_count (perform gw now c b)
    <= total_request_count b + 1)%Z /\
   (failed_request_count b <= failed_request_count (perform gw now c b))%Z /\
   0 <= success_rate (get_connection_health (perform gw now c b)) /\
   success_rate (get_connection_health (perform gw now c b)) <= 1).
Proof.
  split; [unfold counters_ok; simpl; lia|]. intros Hok.
  assert (Hok' : counters_ok (perform gw now c b)).
  { unfold counters_ok in *.
    destruct (perform_cases gw now c b) as [-> | [-> | ->]]; simpl; lia. }
  split; [exact Hok'|].
  split; [|split; [|apply success_rate_bounds, Hok']].
  - destruct (perform_cases gw now c b) as [-> | [-> | ->]]; simpl; lia.
  - destruct (perform_cases gw now c b) as [-> | [-> | ->]]; simpl; lia.
Qed.

End BrokerOrders.

Section BrokerOrdersExamples.
Import Types Storage Broker Examples.

Lemma pending_order_fill_arithmetic_witness :
  (filled_quantity (pending_order_of_trade 200%Z trade_12) = 40%Z /\
   (filled_quantity (pending_order_of_trade 200%Z trade_12)
    + remaining_quantity (pending_order_of_trade 200%Z trade_12)
    = quantity (pending_order_of_trade 200%Z trade_12))%Z) /\
  (filled_quantity (pending_order_of_trade 200%Z trade_12_fractional)
   + remaining_quantity (pending_order_of_trade 200%Z trade_12_fractional)
   = quantity (pending_order_of_trade 200%Z trade_12_fractional) - 1)%Z.
Proof.
  split.
  - apply (proj1 (pending_order_fill_arithmetic 200%Z trade_12) 40%Z).
    reflexivity.
  - apply (proj2 (pending_order_fill_arithmetic 200%Z trade_12_fractional)).
    + intros z E. unfold Qeq in E. simpl in E. lia.
    + reflexivity.
    + reflexivity.
Defined.

Lemma sync_live_orders_lose_strategy_witness :
  exists r,
    rows (sync_pending_orders 300%Z
            (fst (get_enhanced_open_orders gateway_accepting
                    (Returns [trade_12]) 200%Z broker_connected))
            store_linked) !! "12" = Some r /\
    strategy_id (columns r) = None /\ notes (columns r) = None.
Proof.
  apply (sync_live_orders_lose_strategy gateway_accepting (Returns [trade_12])
           200%Z 300%Z broker_connected store_linked "12").
  apply (bool_decide_unpack _). vm_compute. exact I.
Defined.

Lemma sync_after_failed_query_witness :
  fst (get_enhanced_open_orders gateway_accepting (Throws "timeout")
         200%Z broker_connected) = [] /\
  get_pending_orders
    (sync_pending_orders 300%Z
       (fst (get_enhanced_open_orders gateway_accepting (Throws "timeout")
               200%Z broker_connected))
       store_two) !! "10"
  = Some (set_status "Filled" order_10).
Proof.
  destruct (sync_after_failed_query gateway_accepting (Throws "timeout")
              200%Z 300%Z broker_connected store_two) as [Hempty Hfilled].
  - right. exists "timeout"%string. reflexivity.
  - split; [exact Hempty|].
    apply (Hfilled "10"%string row_10); reflexivity.
Defined.

Lemma counters_stay_consistent_witness :
  counters_ok (perform gateway_failing 200%Z GetPositions broker_connected) /\
  success_rate
    (get_connection_health
       (perform gateway_failing 200%Z GetPositions broker_connected)) <= 1.
Proof.
  destruct (counters_stay_consistent gateway_failing 200%Z GetPositions
              broker_connected None) as [_ Hstep].
  destruct Hstep as (Hok & _ & _ & _ & Hle).
  - unfold counters_ok. simpl. lia.
  - split; [exact Hok | exact Hle].
Defined.

End BrokerOrdersExamples.

(** ** Risk gate: stop loss, monotonicity and the suggested size *)

Section RiskMore.
Import Risk.

Variable cfg : Config.



Lemma divisor_positive (p : Portfolio) :
  0 <= total_value p -> 0 < Py.or_else (total_value p) 1.
Proof.
  intros Hnn. unfold Py.or_else. destruct (Py.truthy (total_value p)) eqn:T.
  - apply truthy_true_iff in T. apply Qle_lteq in Hnn as [Hlt|Heq]; [exact Hlt|].
    exfalso. apply T. now symmetry.
  - reflexivity.
Qed.

(** X14: approval is monotone in the quantity: for a non-negative price
    and total value, if a trade is approved then the same trade with a
    smaller quantity is approved against the same portfolio. *)
Theorem evaluate_approval_monotone (t t' : Trade) (p : Portfolio) (r : RiskResult) :
  0 <= price t -> 0 <= total_value p ->
  price t' == price t -> quantity t' <= quantity t ->
  evaluate cfg t p = Some r -> approved r = true ->
  exists r', evaluate cfg t' p = Some r' /\ approved r' = true.
Proof.
  intros Hprice Htotal Hsame Hle Hr Happ.
  destruct (evaluate_unfold cfg t p) as (r0 & Hr0 & _ & Happ0 & _).
  rewrite Hr in Hr0. injection Hr0 as <-.
  destruct (evaluate_unfold cfg t' p) as (r' & Hr' & _ & Happ' & _).
  exists r'. split; [exact Hr'|].
  rewrite Happ0 in Happ. rewrite Happ'.
  apply negb_true_iff, orb_false_iff in Happ as [Hsize Hcount].
  apply negb_true_iff, orb_false_iff. split; [|exact Hcount].
  unfold size_violated in *. apply gtb_false_iff in Hsize.
  apply gtb_false_iff.
  eapply Qle_trans; [|exact Hsize].
  pose proof (divisor_positive p Htotal) as Hd.
  apply Qle_shift_div_l; [exact Hd|].
  unfold Qdiv. rewrite <- Qmult_assoc.
  rewrite (Qmult_comm (/ _)), Qmult_inv_r, Qmult_1_r.
  - rewrite Hsame. apply Qmult_le_compat_r; assumption.
  - intros E. rewrite E in Hd. now apply Qlt_irrefl in Hd.
Qed.



End RiskMore.

Section RiskMoreExamples.
Import Risk Examples.


Lemma evaluate_approval_monotone_witness :
  exists r', evaluate DEFAULTS trade_10 portfolio_10k = Some r' /\
             approved r' = true.
Proof.
  eapply (evaluate_approval_monotone DEFAULTS trade_20 trade_10 portfolio_10k).
  - vm_compute. discriminate.
  - vm_compute. discriminate.
  - reflexivity.
  - vm_compute. discriminate.
  - reflexivity.
  - reflexivity.
Defined.


End RiskMoreExamples.

(** ** Order validator: what an accepted order satisfies *)

Section OrderValidatorMore.
Import OrderValidator.

Implicit Types (order : Order) (errors : list string).

Lemma append_if_nil (c : bool) (msg : string) errors :
  append_if c msg errors = [] -> c = false /\ errors = [].
Proof.
  unfold append_if. destruct c; [|auto].
  intros E. apply app_eq_nil in E as [_ E]. discriminate.
Qed.

Lemma truthy_positive (x : option Q) :
  truthy x = true -> nonpositive x = false ->
  exists q, x = Some q /\ 0 < q.
Proof.
  destruct x as [q|]; simpl; [|discriminate]. intros _ Hnp.
  exists q. split; [reflexivity|].
  apply Qnot_le_lt. rewrite <- Qle_bool_iff. now rewrite Hnp.
Qed.

Lemma check_market_nil order errors :
  check_market order errors = [] ->
  errors = [] /\
  (order_type order = MARKET ->
   truthy (limit_price order) = false /\ truthy (stop_price order) = false).
Proof.
  unfold check_market. case_bool_decide as Ht.
  - intros E. apply append_if_nil in E as [Hs E].
    apply append_if_nil in E as [Hl E]. auto.
  - intros E. split; [exact E | contradiction].
Qed.

Lemma trail_value_nil (x : option Q) (bound : Q) (m1 m2 : string) errors :
  match x with
  | Some a =>
    if Py.truthy a
    then append_if (Py.gtb a bound) m1 (append_if (Qle_bool a 0) m2 errors)
    else errors
  | None => errors
  end = [] ->
  errors = [] /\
  (forall a, x = Some a -> Py.truthy a = true -> 0 < a /\ a <= bound).
Proof.
  destruct x as [a|]; [|intros E; split; [exact E | discriminate]].
  destruct (Py.truthy a) eqn:T.
  - intros E. apply append_if_nil in E as [Hgt E].
    apply append_if_nil in E as [Hle E]. split; [exact E|].
    intros a' Ha _. injection Ha as <-. split.
    + apply Qnot_le_lt. rewrite <- Qle_bool_iff. now rewrite Hle.
    + now apply gtb_false_iff.
  - intros E. split; [exact E|]. intros a' Ha T'. injection Ha as <-.
    congruence.
Qed.

Lemma check_trailing_nil order errors :
  check_trailing order errors = [] ->
  errors = [] /\
  (order_type order = TRAILING_STOP ->
   xorb (truthy (trail_amount order)) (truthy (trail_percent order)) = true /\
   (forall a, trail_amount order = Some a -> Py.truthy a = true ->
              0 < a /\ a <= 1000) /\
   (forall p, trail_percent order = Some p -> Py.truthy p = true ->
              0 < p /\ p <= 50)).
Proof.
  unfold check_trailing. case_bool_decide as Ht.
  - intros E. apply trail_value_nil in E as [E Hpct].
    apply trail_value_nil in E as [E Hamt].
    apply append_if_nil in E as [Hboth E].
    apply append_if_nil in E as [Hnone E].
    split; [exact E|]. intros _. split; [|split; assumption].
    destruct (truthy (trail_amount order)), (truthy (trail_percent order));
      simpl in *; congruence.
  - intros E. split; [exact E | contradiction].
Qed.

Lemma check_stop_limit_nil order errors :
  check_stop_limit order errors = [] ->
  errors = [] /\
  (order_type order = STOP_LIMIT ->
   exists l, limit_price order = Some l /\ 0 < l).
Proof.
  unfold check_stop_limit. case_bool_decide as Ht.
  - intros E. apply append_if_nil in E as [Hc E]. split; [exact E|].
    intros _. apply orb_false_iff in Hc as [Ht' Hnp].
    apply negb_false_iff in Ht'. now apply truthy_positive.
  - intros E. split; [exact E | contradiction].
Qed.

Lemma check_stop_nil order errors :
  check_stop order errors = Ok [] ->
  errors = [] /\
  (order_type order = STOP \/ order_type order = STOP_LIMIT ->
   exists s, stop_price order = Some s /\ 0 < s /\ s <= 100000).
Proof.
  unfold check_stop. case_bool_decide as Ht.
  - destruct (stop_price order) as [s|] eqn:Hs; simpl; [|discriminate].
    intros E. injection E as E.
    apply append_if_nil in E as [Hgt E].
    apply append_if_nil in E as [Hc E]. split; [exact E|].
    intros _. exists s. split; [reflexivity|].
    apply orb_false_iff in Hc as [_ Hnp]. split.
    + apply Qnot_le_lt. rewrite <- Qle_bool_iff. now rewrite Hnp.
    + now apply gtb_false_iff.
  - intros E. injection E as E. split; [exact E|].
    intros Hty. exfalso. apply Ht.
    rewrite !elem_of_cons. destruct Hty as [-> | ->]; auto.
Qed.

Lemma check_limit_nil order errors :
  check_limit order errors = Ok [] ->
  errors = [] /\
  (order_type order = LIMIT ->
   exists l, limit_price order = Some l /\ 0 < l /\ l <= 100000).
Proof.
  unfold check_limit. case_bool_decide as Ht.
  - destruct (limit_price order) as [l|] eqn:Hl; simpl; [|discriminate].
    intros E. injection E as E.
    apply append_if_nil in E as [Hgt E].
    apply append_if_nil in E as [Hc E]. split; [exact E|].
    intros _. exists l. split; [reflexivity|].
    apply orb_false_iff in Hc as [_ Hnp]. split.
    + apply Qnot_le_lt. rewrite <- Qle_bool_iff. now rewrite Hnp.
    + now apply gtb_false_iff.
  - intros E. injection E as E. split; [exact E | contradiction].
Qed.

(** [validate] answers [True] exactly when it found no error. *)
Lemma validate_flag order (ok : bool) errors :
  validate order = Ok (ok, errors) -> ok = (length errors =? 0)%nat.
Proof.
  unfold validate.
  destruct (check_limit order _) as [e1|]; [|discriminate].
  destruct (check_stop order e1) as [e2|]; [|discriminate].
  intros E. now injection E as <- <-.
Qed.

Lemma valid_inv order :
  valid order = true ->
  validate order = Ok (true, []) /\
  (0 < quantity order /\ quantity order <= 100000) /\
  (1 <= String.length (symbol order) <= 10)%nat /\
  (order_type order = LIMIT ->
   exists l, limit_price order = Some l /\ 0 < l /\ l <= 100000) /\
  (order_type order = STOP \/ order_type order = STOP_LIMIT ->
   exists s, stop_price order = Some s /\ 0 < s /\ s <= 100000) /\
  (order_type order = STOP_LIMIT ->
   exists l, limit_price order = Some l /\ 0 < l) /\
  (order_type order = TRAILING_STOP ->
   xorb (truthy (trail_amount order)) (truthy (trail_percent order)) = true /\
   (forall a, trail_amount order = Some a -> Py.truthy a = true ->
              0 < a /\ a <= 1000) /\
   (forall p, trail_percent order = Some p -> Py.truthy p = true ->
              0 < p /\ p <= 50)) /\
  (order_type order = MARKET ->
   truthy (limit_price order) = false /\ truthy (stop_price order) = false).
Proof.
  unfold valid. destruct (validate order) as [[ok errs]|] eqn:Hv;
    [|discriminate].
  intros ->. pose proof (validate_flag _ _ _ Hv) as Hlen.
  symmetry in Hlen. apply Nat.eqb_eq in Hlen.
  destruct errs; [|discriminate]. split; [reflexivity|].
  unfold validate in Hv.
  destruct (check_limit order _) as [e1|] eqn:H1; [|discriminate].
  destruct (check_stop order e1) as [e2|] eqn:H2; [|discriminate].
  injection Hv as _ Hv.
  apply check_market_nil in Hv as [Hv Hmarket].
  apply check_trailing_nil in Hv as [Hv Htrail].
  apply check_stop_limit_nil in Hv as [-> Hsl].
  apply check_stop_nil in H2 as [-> Hstop].
  apply check_limit_nil in H1 as [H0 Hlimit].
  apply append_if_nil in H0 as [_ H0].
  apply append_if_nil in H0 as [Hlong H0].
  apply append_if_nil in H0 as [Hempty H0].
  apply append_if_nil in H0 as [Hqmax H0].
  apply append_if_nil in H0 as [Hqpos _].
  split; [split|].
  - apply Qnot_le_lt. rewrite <- Qle_bool_iff. now rewrite Hqpos.
  - now apply gtb_false_iff.
  - split; [|tauto].
    apply Nat.eqb_neq in Hempty. apply Nat.ltb_ge in Hlong. lia.
Qed.

(** X16: an order that [validate] accepts has a quantity in (0, 100000]
    and a symbol of 1 to 10 characters; a limit order has a limit price in
    (0, 100000]; a stop or stop-limit order has a stop price in
    (0, 100000] and a stop-limit order a positive limit price; a
    trailing stop sets exactly one of amount and percent, the amount in
    (0, 1000] or the percent in (0, 50]; a market order carries no
    price. *)
Theorem validate_accepted_order_bounds order :
  valid order = true ->
  (0 < quantity order /\ quantity order <= 100000) /\
  (1 <= String.length (symbol order) <= 10)%nat /\
  (order_type order = LIMIT ->
   exists l, limit_price order = Some l /\ 0 < l /\ l <= 100000) /\
  (order_type order = STOP \/ order_type order = STOP_LIMIT ->
   exists s, stop_price order = Some s /\ 0 < s /\ s <= 100000) /\
  (order_type order = STOP_LIMIT ->
   exists l, limit_price order = Some l /\ 0 < l) /\
  (order_type order = TRAILING_STOP ->
   xorb (truthy (trail_amount order)) (truthy (trail_percent order)) = true /\
   (forall a, trail_amount order = Some a -> Py.truthy a = true ->
              0 < a /\ a <= 1000) /\
   (forall p, trail_percent order = Some p -> Py.truthy p = true ->
              0 < p /\ p <= 50)) /\
  (order_type order = MARKET ->
   truthy (limit_price order) = false /\ truthy (stop_price order) = false).
Proof. intros Hv. now apply valid_inv in Hv. Qed.


End OrderValidatorMore.

Section OrderValidatorBatch.
Import OrderValidator.

Implicit Types (order : Order) (orders : list Order) (errors : list string)
         (m : gmap nat (list string)).





End OrderValidatorBatch.

Section OrderValidatorBracket.
Import OrderValidator.

Implicit Types (entry target stop order : Order) (errors : list string).

Lemma extend_unless_nil order (ok : bool) (order_errors : list string)
      (label : string) errors :
  validate order = Ok (ok, order_errors) ->
  extend_unless ok label order_errors errors = [] ->
  errors = [] /\ valid order = true.
Proof.
  intros Hv. pose proof (validate_flag _ _ _ Hv) as Hflag.
  unfold extend_unless, valid. rewrite Hv. destruct ok; [auto|].
  intros E. apply app_eq_nil in E as [_ E].
  destruct order_errors; [discriminate Hflag | discriminate E].
Qed.

Lemma le_opt_false (x y : option Q) :
  le_opt x y = Ok false -> exists a b, x = Some a /\ y = Some b /\ b < a.
Proof.
  destruct x as [a|], y as [b|]; simpl; try discriminate.
  intros E. injection E as E. exists a, b. split; [reflexivity|].
  split; [reflexivity|]. apply Qnot_le_lt. rewrite <- Qle_bool_iff.
  now rewrite E.
Qed.

(** What an empty error list after a price-relationship block tells. *)
Lemma check_bracket_prices_nil (buy : bool) entry target stop errors :
  check_bracket_prices buy entry target stop errors = Ok [] ->
  errors = [] /\
  (action entry = (if buy then BUY else SELL) -> order_type entry = LIMIT ->
   (order_type target = LIMIT -> truthy (limit_price target) = true ->
    exists le lt, limit_price entry = Some le /\ limit_price target = Some lt /\
                  if buy then le < lt else lt < le) /\
   (order_type stop = STOP \/ order_type stop = STOP_LIMIT ->
    truthy (stop_price stop) = true ->
    exists le ss, limit_price entry = Some le /\ stop_price stop = Some ss /\
                  if buy then ss < le else le < ss)).
Proof.
  unfold check_bracket_prices.
  destruct (bool_decide (action entry = _) && bool_decide (order_type entry = LIMIT))
    eqn:Hguard.
  2:{ intros E. injection E as ->. split; [reflexivity|].
      intros Ha Ht. rewrite andb_false_iff, !bool_decide_eq_false in Hguard.
      tauto. }
  destruct (if bool_decide (order_type target = LIMIT) && _ then _ else _)
    as [bad_target|] eqn:Htarget; [|discriminate].
  destruct (if bool_decide (order_type stop ∈ _) && _ then _ else _)
    as [bad_stop|] eqn:Hstop; [|discriminate].
  intros E. injection E as E.
  apply append_if_nil in E as [-> E].
  apply append_if_nil in E as [-> ->].
  split; [reflexivity|]. intros _ _. split.
  - intros Hty Htr.
    rewrite bool_decide_eq_true_2, Htr in Htarget by exact Hty. simpl in Htarget.
    destruct buy; apply le_opt_false in Htarget as (a & b & Ha & Hb & Hlt);
      eauto.
  - intros Hty Htr.
    rewrite bool_decide_eq_true_2, Htr in Hstop.
    2:{ rewrite !elem_of_cons. destruct Hty as [-> | ->]; auto. }
    simpl in Hstop.
    destruct buy; apply le_opt_false in Hstop as (a & b & Ha & Hb & Hlt);
      eauto.
Qed.

Lemma positive_truthy (x : option Q) (q : Q) :
  x = Some q -> 0 < q -> truthy x = true.
Proof.
  intros -> Hpos. simpl. apply truthy_true_iff. intros E.
  rewrite E in Hpos. now apply Qlt_irrefl in Hpos.
Qed.

(** X19: a bracket that [validate_bracket_order] accepts consists of
    three individually valid orders for the same symbol and quantity whose
    exit legs act opposite to the entry; and when the entry is a limit
    order, a limit target lies beyond the entry price in the direction of
    profit and a stop leg's stop price on the other side of it (for a BUY
    entry: stop < entry < target). *)
Theorem validate_bracket_order_accepts entry target stop errors :
  validate_bracket_order entry target stop = Ok (true, errors) ->
  errors = [] /\
  valid entry = true /\ valid target = true /\ valid stop = true /\
  symbol target = symbol entry /\ symbol stop = symbol entry /\
  quantity target == quantity entry /\ quantity stop == quantity entry /\
  action target <> action entry /\ action stop <> action entry /\
  (order_type entry = LIMIT ->
   exists le, limit_price entry = Some le /\
     (order_type target = LIMIT ->
      exists lt, limit_price target = Some lt /\
                 if bool_decide (action entry = BUY)
                 then le < lt else lt < le) /\
     (order_type stop = STOP \/ order_type stop = STOP_LIMIT ->
      exists ss, stop_price stop = Some ss /\
                 if bool_decide (action entry = BUY)
                 then ss < le else le < ss)).
Proof.
  unfold validate_bracket_order.
  destruct (validate entry) as [[ev ee]|] eqn:Hve; [|discriminate].
  destruct (validate target) as [[tv te]|] eqn:Hvt; [|discriminate].
  destruct (validate stop) as [[sv se]|] eqn:Hvs; [|discriminate].
  destruct (check_bracket_prices true _ _ _ _) as [e1|] eqn:Hbuy;
    [|discriminate].
  destruct (check_bracket_prices false _ _ _ e1) as [e2|] eqn:Hsell;
    [|discriminate].
  intros E. injection E as Hlen ->.
  apply Nat.eqb_eq in Hlen. destruct errors; [|discriminate]. clear Hlen.
  apply check_bracket_prices_nil in Hsell as [-> Hsell].
  apply check_bracket_prices_nil in Hbuy as [Hact Hbuy].
  assert (Hacts : action target <> action entry /\ action stop <> action entry
                  /\ exists e0,
                       append_if (negb (Qeq_bool (quantity entry) (quantity target))
                                  || negb (Qeq_bool (quantity entry) (quantity stop)))
                         "All bracket orders must have the same quantity" e0 = []
                       /\ e0 = append_if
                                 (negb (String.eqb (symbol entry) (symbol target))
                                  || negb (String.eqb (symbol entry) (symbol stop)))
                                 "All bracket orders must be for the same symbol"
                                 (extend_unless sv "Stop order" se
                                    (extend_unless tv "Target order" te
                                       (extend_unless ev "Entry order" ee [])))).
  { case_bool_decide as Hb.
    - apply append_if_nil in Hact as [Hs Hact].
      apply append_if_nil in Hact as [Ht Hact].
      apply negb_false_iff, bool_decide_eq_true in Hs, Ht.
      rewrite Hb, Hs, Ht. repeat split; try discriminate. eauto.
    - apply append_if_nil in Hact as [Hs Hact].
      apply append_if_nil in Hact as [Ht Hact].
      apply negb_false_iff, bool_decide_eq_true in Hs, Ht.
      assert (action entry = SELL) as -> by (destruct (action entry); congruence).
      rewrite Hs, Ht. repeat split; try discriminate. eauto. }
  destruct Hacts as (Hat & Has & e0 & Hq & ->).
  apply append_if_nil in Hq as [Hqty Hsym].
  apply append_if_nil in Hsym as [Hsym Hext].
  apply (extend_unless_nil stop) in Hext as [Hext Hs]; [|exact Hvs].
  apply (extend_unless_nil target) in Hext as [Hext Ht]; [|exact Hvt].
  apply (extend_unless_nil entry) in Hext as [_ He]; [|exact Hve].
  apply orb_false_iff in Hqty as [Hq1 Hq2], Hsym as [Hs1 Hs2].
  apply negb_false_iff in Hq1, Hq2, Hs1, Hs2.
  apply Qeq_bool_iff in Hq1, Hq2. apply String.eqb_eq in Hs1, Hs2.
  split; [reflexivity|].
  repeat (split; [first [assumption | now symmetry]|]).
  intros Hlimit.
  destruct (valid_inv entry He) as (_ & _ & _ & Hel & _).
  destruct (Hel Hlimit) as (le & Hle & _).
  exists le. split; [exact Hle|].
  destruct (valid_inv target Ht) as (_ & _ & _ & Htl & _).
  destruct (valid_inv stop Hs) as (_ & _ & _ & _ & Hss & _).
  split.
  - intros Hty. destruct (Htl Hty) as (lt & Hlt & Hpos & _).
    exists lt. split; [exact Hlt|].
    pose proof (positive_truthy _ _ Hlt Hpos) as Htr.
    case_bool_decide as Hb.
    + destruct (Hbuy Hb Hlimit) as [Hres _].
      destruct (Hres Hty Htr) as (a & b & Ha & Hb' & Hrel). congruence.
    + assert (Hsl : action entry = SELL) by (destruct (action entry); congruence).
      destruct (Hsell Hsl Hlimit) as [Hres _].
      destruct (Hres Hty Htr) as (a & b & Ha & Hb' & Hrel). congruence.
  - intros Hty. destruct (Hss Hty) as (ss & Hsp & Hpos & _).
    exists ss. split; [exact Hsp|].
    pose proof (positive_truthy _ _ Hsp Hpos) as Htr.
    case_bool_decide as Hb.
    + destruct (Hbuy Hb Hlimit) as [_ Hres].
      destruct (Hres Hty Htr) as (a & b & Ha & Hb' & Hrel). congruence.
    + assert (Hsl : action entry = SELL) by (destruct (action entry); congruence).
      destruct (Hsell Hsl Hlimit) as [_ Hres].
      destruct (Hres Hty Htr) as (a & b & Ha & Hb' & Hrel). congruence.
Qed.

End OrderValidatorBracket.

Section OrderValidatorExamples.
Import OrderValidator Examples.

Lemma validate_accepted_order_bounds_witness :
  (0 < quantity next_entry /\ quantity next_entry <= 100000) /\
  (1 <= String.length (symbol next_entry) <= 10)%nat /\
  exists l, limit_price next_entry = Some l /\ 0 < l /\ l <= 100000.
Proof.
  destruct (validate_accepted_order_bounds next_entry) as (Hq & Hs & Hl & _).
  - vm_compute. reflexivity.
  - split; [exact Hq|]. split; [exact Hs|]. apply Hl. reflexivity.
Defined.


Lemma validate_bracket_order_accepts_witness :
  valid next_entry = true /\ valid next_target = true /\
  valid next_stop = true /\
  symbol next_target = symbol next_entry /\
  action next_target <> action next_entry /\
  exists le, limit_price next_entry = Some le /\
    (exists lt, limit_price next_target = Some lt /\ le < lt) /\
    (exists ss, stop_price next_stop = Some ss /\ ss < le).
Proof.
  destruct (validate_bracket_order_accepts next_entry next_target next_stop [])
    as (_ & He & Ht & Hs & Hsym & _ & _ & _ & Hact & _ & Hprice).
  - vm_compute. reflexivity.
  - repeat (split; [assumption|]).
    destruct (Hprice eq_refl) as (le & Hle & Htarget & Hstop).
    exists le. split; [exact Hle|]. split.
    + destruct (Htarget eq_refl) as (lt & Hlt & Hcmp). exists lt.
      split; [exact Hlt | exact Hcmp].
    + destruct (Hstop (or_introl eq_refl)) as (ss & Hss & Hcmp). exists ss.
      split; [exact Hss | exact Hcmp].
Defined.

End OrderValidatorExamples.

(** ** Connection pool: what a checkout hands out and what it drops *)

Section PoolMore.
Import ConnectionPool.

Variable reachable : conn -> bool.

Lemma checkout_spec (timeout : Q) (queue : list conn) (p : Pool) :
  match checkout reachable timeout queue p with
  | (Ok c, p') =>
    exists dropped rest,
      queue = dropped ++ c :: rest /\
      available p' = rest /\
      in_use p' = in_use p ++ [c] /\
      c ∈ connected p' /\
      waited p' = waited p /\
      Forall (fun d => (d ∉ connected p) /\ reachable d = false) dropped
  | (Raise e, p') =>
    e = TimeoutError timeout /\
    available p' = [] /\
    in_use p' = in_use p /\
    connected p' = connected p /\
    waited p' = waited p + timeout /\
    Forall (fun d => (d ∉ connected p) /\ reachable d = false) queue
  end.
Proof.
  revert p. induction queue as [|c rest IH]; intros p; simpl.
  - repeat split; constructor.
  - unfold is_connected at 1. simpl. case_bool_decide as Hc.
    + exists [], rest. simpl. repeat split; [exact Hc | constructor].
    + unfold connect, is_connected. simpl.
      rewrite bool_decide_eq_false_2 by exact Hc.
      destruct (reachable c) eqn:Hr.
      * exists [], rest. simpl. repeat split; [set_solver | constructor].
      * specialize (IH (set_available rest p)).
        destruct (checkout reachable timeout rest (set_available rest p))
          as [[c' | e] p'].
        -- destruct IH as (dropped & rest' & -> & Hav & Hin & Hcon & Hw & Hd).
           exists (c :: dropped), rest'. simpl in *.
           repeat split; try assumption. constructor; [split|]; assumption.
        -- destruct IH as (-> & Hav & Hin & Hcon & Hw & Hd). simpl in *.
           repeat split; try assumption. constructor; [split|]; assumption.
Qed.

Lemma get_connection_spec (timeout : Q) (p : Pool) :
  initialized p = true ->
  match get_connection reachable timeout p with
  | (Ok c, p') =>
    exists dropped rest,
      available p = dropped ++ c :: rest /\
      available p' = rest /\
      in_use p' = in_use p ++ [c] /\
      c ∈ connected p' /\
      connections p' = connections p /\
      Forall (fun d => (d ∉ connected p) /\ reachable d = false) dropped
  | (Raise e, p') =>
    e = TimeoutError timeout /\
    available p' = [] /\
    in_use p' = in_use p /\
    connections p' = connections p /\
    Forall (fun d => (d ∉ connected p) /\ reachable d = false) (available p)
  end.
Proof.
  intros Hinit. unfold get_connection. rewrite Hinit.
  pose proof (checkout_spec timeout (available p) p) as Hspec.
  pose proof (checkout_frame reachable timeout (available p) p) as Hframe.
  simpl in Hframe. destruct Hframe as (Hconn & _).
  destruct (checkout reachable timeout (available p) p) as [[c | e] p'];
    simpl in *.
  - destruct Hspec as (dropped & rest & Hq & Hav & Hin & Hcon & _ & Hd).
    exists dropped, rest. repeat split; assumption.
  - destruct Hspec as (-> & Hav & Hin & _ & _ & Hd).
    repeat split; assumption.
Qed.


Lemma remove_first_app_last (c : conn) (l : list conn) :
  c ∉ l -> remove_first c (l ++ [c]) = l.
Proof.
  induction l as [|x l IH]; simpl; intros Hnot.
  - now rewrite Nat.eqb_refl.
  - apply not_elem_of_cons in Hnot as [Hne Hnot].
    rewrite (proj2 (Nat.eqb_neq c x)) by exact Hne. now rewrite IH.
Qed.

(** X21: checking a manager out and releasing it while it is still
    connected puts it back at the end of the queue and restores the list
    of managers in use; the pool's managers are the same. *)
Theorem checkout_then_release (timeout : Q) (p p1 : Pool) (c : conn) :
  initialized p = true ->
  c ∉ in_use p ->
  get_connection reachable timeout p = (Ok c, p1) ->
  exists p2,
    release_connection reachable c p1 = (Ok tt, p2) /\
    in_use p2 = in_use p /\
    available p2 = available p1 ++ [c] /\
    connections p2 = connections p /\
    connected p2 = connected p1.
Proof.
  intros Hinit Hfree Hget.
  pose proof (get_connection_spec timeout p Hinit) as Hspec.
  rewrite Hget in Hspec.
  destruct Hspec as (dropped & rest & Hq & Hav & Hin & Hcon & Hconn & _).
  unfold release_connection.
  rewrite bool_decide_eq_true_2 by (rewrite Hin; set_solver).
  unfold is_connected at 1. simpl.
  rewrite bool_decide_eq_true_2 by exact Hcon.
  eexists. split; [reflexivity|]. simpl.
  rewrite Hin, remove_first_app_last by exact Hfree.
  repeat split. exact Hconn.
Qed.




End PoolMore.

Section PoolMoreExamples.
Import ConnectionPool Examples.


Lemma checkout_then_release_witness :
  exists p1 p2,
    get_connection never_reachable 5 pool_idle = (Ok 1%nat, p1) /\
    release_connection never_reachable 1%nat p1 = (Ok tt, p2) /\
    in_use p2 = in_use pool_idle /\
    available p2 = available p1 ++ [1%nat].
Proof.
  assert (Hget : exists p1, get_connection never_reachable 5 pool_idle
                            = (Ok 1%nat, p1)) by (eexists; reflexivity).
  destruct Hget as [p1 Hget].
  destruct (checkout_then_release never_reachable 5 pool_idle p1 1%nat)
    as (p2 & Hrel & Hin & Hav & _).
  - reflexivity.
  - apply not_elem_of_nil.
  - exact Hget.
  - exists p1, p2. repeat split; assumption.
Defined.


End PoolMoreExamples.

(** ** Connection manager: reconnection with backoff *)

Section ManagerFacts.
Import ConnectionManager.

Variable accepts : nat -> bool.

Lemma backoff_total_bound (a n : nat) : (backoff_total a n <= 30 * n)%nat.
Proof.
  revert a. induction n as [|n IH]; intros a; simpl; [lia|].
  specialize (IH (S a)). pose proof (Nat.le_min_r (2 ^ a) 30). lia.
Qed.

Lemma connect_step_retry (fuel : nat) (m : Manager) :
  ib_connected m = false -> accepts (attempts_made m) = false ->
  (reconnect_attempts m < max_reconnects m)%nat ->
  connect accepts (S (S fuel)) m =
  connect accepts fuel {| ib_connected := false;
                          reconnect_attempts := S (reconnect_attempts m);
                          max_reconnects := max_reconnects m;
                          attempts_made := S (attempts_made m);
                          slept := slept m + wait_time m |}.
Proof.
  intros Hdown Hfail Hlt. cbn [connect _reconnect]. rewrite Hdown, Hfail.
  simpl. now rewrite (proj2 (Nat.leb_gt _ _)) by exact Hlt.
Qed.

Lemma connect_step_stop (fuel : nat) (m : Manager) :
  ib_connected m = false -> accepts (attempts_made m) = false ->
  (max_reconnects m <= reconnect_attempts m)%nat ->
  connect accepts (S (S fuel)) m =
  Some (false, {| ib_connected := false;
                  reconnect_attempts := reconnect_attempts m;
                  max_reconnects := max_reconnects m;
                  attempts_made := S (attempts_made m);
                  slept := slept m |}).
Proof.
  intros Hdown Hfail Hle. cbn [connect _reconnect]. rewrite Hdown, Hfail.
  simpl. now rewrite (proj2 (Nat.leb_le _ _)) by exact Hle.
Qed.

Lemma connect_step_ok (fuel : nat) (m : Manager) :
  ib_connected m = false -> accepts (attempts_made m) = true ->
  connect accepts (S fuel) m =
  Some (true, {| ib_connected := true;
                 reconnect_attempts := 0;
                 max_reconnects := max_reconnects m;
                 attempts_made := S (attempts_made m);
                 slept := slept m |}).
Proof. intros Hdown Hok. cbn [connect]. now rewrite Hdown, Hok. Qed.

Lemma first_attempt_fails (m : Manager) (j : nat) :
  (forall i, (i <= j)%nat -> accepts (attempts_made m + i) = false) ->
  accepts (attempts_made m) = false.
Proof.
  intros Hfail. rewrite <- (Nat.add_0_r (attempts_made m)). apply Hfail. lia.
Qed.

Lemma connect_succeeds_after (j : nat) (m : Manager) (fuel : nat) :
  ib_connected m = false ->
  (reconnect_attempts m + j <= max_reconnects m)%nat ->
  (forall i, (i < j)%nat -> accepts (attempts_made m + i) = false) ->
  accepts (attempts_made m + j) = true ->
  (2 * j + 1 <= fuel)%nat ->
  exists m', connect accepts fuel m = Some (true, m') /\
    ib_connected m' = true /\ reconnect_attempts m' = 0%nat /\
    max_reconnects m' = max_reconnects m /\
    attempts_made m' = (attempts_made m + j + 1)%nat /\
    slept m' = (slept m + backoff_total (reconnect_attempts m) j)%nat.
Proof.
  revert m fuel. induction j as [|j IH]; intros m fuel Hdown Hbudget Hfail Hok Hfuel.
  - destruct fuel as [|fuel]; [lia|].
    rewrite Nat.add_0_r in Hok. rewrite (connect_step_ok fuel m Hdown Hok).
    eexists. split; [reflexivity|]. simpl. repeat split; lia.
  - destruct fuel as [|[|fuel]]; [lia | lia |].
    rewrite connect_step_retry; [|exact Hdown| |lia].
    2:{ apply (first_attempt_fails m j). intros i Hi. apply Hfail. lia. }
    match goal with
    | |- context [connect accepts fuel ?m2] =>
      destruct (IH m2 fuel) as (m' & Hc & H1 & H2 & H3 & H4 & H5)
    end; simpl; try lia; try reflexivity.
    + intros i Hi. specialize (Hfail (S i) ltac:(lia)).
      now rewrite Nat.add_succ_r in Hfail.
    + now rewrite Nat.add_succ_r in Hok.
    + exists m'. split; [exact Hc|]. simpl in *.
      unfold wait_time in H5.
      repeat split; try assumption; lia.
Qed.

Lemma connect_gives_up (k : nat) (m : Manager) (fuel : nat) :
  ib_connected m = false ->
  (reconnect_attempts m + k = max_reconnects m)%nat ->
  (forall i, (i <= k)%nat -> accepts (attempts_made m + i) = false) ->
  (2 * k + 2 <= fuel)%nat ->
  exists m', connect accepts fuel m = Some (false, m') /\
    ib_connected m' = false /\
    reconnect_attempts m' = max_reconnects m /\
    max_reconnects m' = max_reconnects m /\
    attempts_made m' = (attempts_made m + k + 1)%nat /\
    slept m' = (slept m + backoff_total (reconnect_attempts m) k)%nat.
Proof.
  revert m fuel. induction k as [|k IH]; intros m fuel Hdown Hbudget Hfail Hfuel;
    (destruct fuel as [|[|fuel]]; [lia | lia |]);
    pose proof (first_attempt_fails m _ Hfail) as Hf0.
  - rewrite connect_step_stop; [|exact Hdown|exact Hf0|lia].
    eexists. split; [reflexivity|]. simpl. repeat split; lia.
  - rewrite connect_step_retry; [|exact Hdown|exact Hf0|lia].
    match goal with
    | |- context [connect accepts fuel ?m2] =>
      destruct (IH m2 fuel) as (m' & Hc & H1 & H2 & H3 & H4 & H5)
    end; simpl; try lia; try reflexivity.
    + intros i Hi. specialize (Hfail (S i) ltac:(lia)).
      now rewrite Nat.add_succ_r in Hfail.
    + exists m'. split; [exact Hc|]. simpl in *.
      unfold wait_time in H5.
      repeat split; try assumption; lia.
Qed.

(** X23: [connect] on a manager that is down returns.  If the gateway
    refuses the first [j] attempts and accepts the next, with [j] within
    the remaining retry budget, it returns [True] after [j + 1] attempts,
    having slept [min(2^a, 30) + min(2^(a+1), 30) + ...] seconds ([j]
    terms, [a] the reconnections counted before), and resets the
    reconnection counter to zero. *)
Theorem connect_succeeds_with_backoff (j : nat) (m : Manager) (fuel : nat) :
  ib_connected m = false ->
  (reconnect_attempts m + j <= max_reconnects m)%nat ->
  (forall i, (i < j)%nat -> accepts (attempts_made m + i) = false) ->
  accepts (attempts_made m + j) = true ->
  (2 * j + 1 <= fuel)%nat ->
  exists m', connect accepts fuel m = Some (true, m') /\
    ib_connected m' = true /\ reconnect_attempts m' = 0%nat /\
    attempts_made m' = (attempts_made m + j + 1)%nat /\
    slept m' = (slept m + backoff_total (reconnect_attempts m) j)%nat /\
    (slept m' <= slept m + 30 * j)%nat.
Proof.
  intros Hdown Hbudget Hfail Hok Hfuel.
  destruct (connect_succeeds_after j m fuel Hdown Hbudget Hfail Hok Hfuel)
    as (m' & Hc & H1 & H2 & _ & H4 & H5).
  exists m'. repeat split; try assumption.
  rewrite H5. pose proof (backoff_total_bound (reconnect_attempts m) j). lia.
Qed.

(** X24: when the gateway refuses every attempt, [connect] gives up: it
    returns [False] after one attempt more than the remaining retry
    budget, having slept the backoff delays of that budget (6 attempts
    and 1 + 2 + 4 + 8 + 16 = 31 seconds for a new manager), and leaves
    the reconnection counter at its maximum.  With the budget used up, a
    [connect] that fails makes a single attempt and does not wait. *)
Theorem connect_gives_up_after_budget (m : Manager) (fuel : nat) :
  ib_connected m = false ->
  (reconnect_attempts m <= max_reconnects m)%nat ->
  (forall i, accepts (attempts_made m + i) = false) ->
  (2 * (max_reconnects m - reconnect_attempts m) + 2 <= fuel)%nat ->
  exists m', connect accepts fuel m = Some (false, m') /\
    ib_connected m' = false /\
    reconnect_attempts m' = max_reconnects m' /\
    attempts_made m' =
      (attempts_made m + (max_reconnects m - reconnect_attempts m) + 1)%nat /\
    slept m' = (slept m + backoff_total (reconnect_attempts m)
                            (max_reconnects m - reconnect_attempts m))%nat /\
    (reconnect_attempts m = 0%nat -> max_reconnects m = 5%nat ->
     attempts_made m' = (attempts_made m + 6)%nat /\
     slept m' = (slept m + 31)%nat) /\
    (reconnect_attempts m = max_reconnects m ->
     attempts_made m' = S (attempts_made m) /\ slept m' = slept m).
Proof.
  intros Hdown Hle Hfail Hfuel.
  destruct (connect_gives_up (max_reconnects m - reconnect_attempts m) m fuel)
    as (m' & Hc & H1 & H2 & H3 & H4 & H5); try assumption; try lia.
  { intros i _. apply Hfail. }
  exists m'. split; [exact Hc|]. split; [exact H1|].
  split; [congruence|]. split; [exact H4|]. split; [exact H5|]. split.
  - intros Ha Hmax. rewrite H4, H5, Ha, Hmax. simpl. lia.
  - intros Heq. rewrite H4, H5, Heq, Nat.sub_diag. simpl. lia.
Qed.

End ManagerFacts.

Section ManagerExamples.
Import ConnectionManager Examples.

Lemma connect_succeeds_with_backoff_witness :
  exists m', connect accepts_third 5 new_manager = Some (true, m') /\
    ib_connected m' = true /\ reconnect_attempts m' = 0%nat /\
    attempts_made m' = 3%nat /\ slept m' = 3%nat.
Proof.
  destruct (connect_succeeds_with_backoff accepts_third 2 new_manager 5)
    as (m' & Hc & Hup & Hzero & Hmade & Hslept & _).
  - reflexivity.
  - simpl. lia.
  - intros i Hi. destruct i as [|[|i]]; [reflexivity | reflexivity | lia].
  - reflexivity.
  - lia.
  - exists m'. repeat split; assumption.
Defined.

Lemma connect_gives_up_after_budget_witness :
  exists m', connect accepts_never 12 new_manager = Some (false, m') /\
    ib_connected m' = false /\
    attempts_made m' = 6%nat /\ slept m' = 31%nat.
Proof.
  destruct (connect_gives_up_after_budget accepts_never new_manager 12)
    as (m' & Hc & Hdown & _ & _ & _ & Hnew & _).
  - reflexivity.
  - simpl. lia.
  - intros i. reflexivity.
  - simpl. lia.
  - destruct (Hnew eq_refl eq_refl) as [Hmade Hslept].
    exists m'. repeat split; assumption.
Defined.

End ManagerExamples.

(** ** Order validation: the normalised order *)

Section ValidatorStages.
Import Validators.
Context `{Runtime}.

Implicit Types (order n : gmap string value) (k t : string).

Lemma positive_iff (x : Q) : positive x = true <-> 0 < x.
Proof.
  unfold positive. rewrite negb_true_iff, <- not_true_iff_false, Qle_bool_iff.
  split; [apply Qnot_le_lt | apply Qlt_not_le].
Qed.

Lemma checked_float_inv order k (ok : Q -> bool) (label : string) (x : Q) :
  checked_float order k ok label = Ok x ->
  ok x = true /\ exists v, order !! k = Some v /\ py_float v = Some x.
Proof.
  unfold checked_float, getitem.
  destruct (order !! k) as [v|]; simpl; [|discriminate].
  destruct (py_float v) as [y|] eqn:Hv; [|discriminate].
  destruct (ok y) eqn:Hok; [|discriminate].
  intros E. injection E as <-. split; [exact Hok|].
  exists v. split; [reflexivity | exact Hv].
Qed.

Lemma add_limit_price_inv order n t n' :
  add_limit_price order n t = Ok n' ->
  (mem t ["LMT"; "STP LMT"] = true /\
   exists x, 0 < x /\ n' = <["limit_price" := VFloat x]> n) \/
  (mem t ["LMT"; "STP LMT"] = false /\ n' = n).
Proof.
  unfold add_limit_price. destruct (mem t _); [|intros E; injection E; auto].
  destruct (absent order "limit_price"); [discriminate|].
  destruct (checked_float order "limit_price" positive _) as [x|e] eqn:Hc;
    simpl; [|discriminate].
  intros E. injection E as <-. left. split; [reflexivity|].
  apply checked_float_inv in Hc as [Hpos _]. exists x.
  split; [now apply positive_iff | reflexivity].
Qed.

Lemma add_stop_price_inv order n t n' :
  add_stop_price order n t = Ok n' ->
  (mem t ["STP"; "STP LMT"] = true /\
   exists x, 0 < x /\ n' = <["stop_price" := VFloat x]> n) \/
  (mem t ["STP"; "STP LMT"] = false /\ n' = n).
Proof.
  unfold add_stop_price. destruct (mem t _); [|intros E; injection E; auto].
  destruct (absent order "stop_price"); [discriminate|].
  destruct (checked_float order "stop_price" positive _) as [x|e] eqn:Hc;
    simpl; [|discriminate].
  intros E. injection E as <-. left. split; [reflexivity|].
  apply checked_float_inv in Hc as [Hpos _]. exists x.
  split; [now apply positive_iff | reflexivity].
Qed.

Lemma add_trail_inv order n t n' :
  add_trail order n t = Ok n' ->
  (t = "TRAIL"%string /\
   exists percent amount : option Q,
     (is_Some percent \/ is_Some amount) /\
     (forall x, percent = Some x -> 0 < x /\ x <= 100) /\
     (forall x, amount = Some x -> 0 < x) /\
     n' = ins_opt "trail_amount" amount (ins_opt "trail_percent" percent n)) \/
  (t <> "TRAIL"%string /\ n' = n).
Proof.
  unfold add_trail. destruct (String.eqb t "TRAIL") eqn:Ht.
  2:{ intros E. injection E as <-. right. split; [|reflexivity].
      now apply String.eqb_neq. }
  apply String.eqb_eq in Ht. intros E. left. split; [exact Ht|].
  destruct (absent order "trail_percent") eqn:Hp,
           (absent order "trail_amount") eqn:Ha; simpl in E;
    try discriminate.
  - destruct (checked_float order "trail_amount" positive _) as [a|] eqn:Hca;
      simpl in E; [|discriminate].
    injection E as <-. apply checked_float_inv in Hca as [Hpa _].
    exists None, (Some a).
    split; [right; eauto|]. split; [discriminate|]. split; [|reflexivity].
    intros y Hy. injection Hy as <-. now apply positive_iff.
  - destruct (checked_float order "trail_percent" _ _) as [p|] eqn:Hcp;
      simpl in E; [|discriminate].
    injection E as <-. apply checked_float_inv in Hcp as [Hpp _].
    apply negb_true_iff, orb_false_iff in Hpp as [Hle Hgt].
    exists (Some p), None.
    split; [left; eauto|]. split; [|split; [discriminate | reflexivity]].
    intros y Hy. injection Hy as <-. split.
    + apply Qnot_le_lt. rewrite <- Qle_bool_iff. now rewrite Hle.
    + now apply gtb_false_iff.
  - destruct (checked_float order "trail_percent" _ _) as [p|] eqn:Hcp;
      simpl in E; [|discriminate].
    destruct (checked_float order "trail_amount" positive _) as [a|] eqn:Hca;
      simpl in E; [|discriminate].
    injection E as <-.
    apply checked_float_inv in Hcp as [Hpp _].
    apply checked_float_inv in Hca as [Hpa _].
    apply negb_true_iff, orb_false_iff in Hpp as [Hle Hgt].
    exists (Some p), (Some a).
    split; [left; eauto|]. split; [|split; [|reflexivity]].
    + intros y Hy. injection Hy as <-. split.
      * apply Qnot_le_lt. rewrite <- Qle_bool_iff. now rewrite Hle.
      * now apply gtb_false_iff.
    + intros y Hy. injection Hy as <-. now apply positive_iff.
Qed.

Lemma normalize_option_type_inv order (c : option string) :
  normalize_option_type order = Ok c ->
  c = None \/ c = Some "C"%string \/ c = Some "P"%string.
Proof.
  unfold normalize_option_type, getitem, mem.
  destruct (contains order "option_type").
  - destruct (order !! "option_type") as [v|]; simpl; [|discriminate].
    destruct (String.eqb _ "CALL"); [intros E; injection E as <-; auto|].
    destruct (String.eqb _ "PUT"); [intros E; injection E as <-; auto|].
    case_bool_decide as Hm; [|discriminate].
    intros E. injection E as <-.
    rewrite !elem_of_cons, elem_of_nil in Hm.
    destruct Hm as [-> | [-> | []]]; auto.
  - destruct (contains order "right"); [|intros E; injection E as <-; auto].
    destruct (order !! "right") as [v|]; simpl; [|discriminate].
    case_bool_decide as Hm.
    + intros E. injection E as <-.
      rewrite !elem_of_cons, elem_of_nil in Hm.
      destruct Hm as [-> | [-> | []]]; auto.
    + destruct (String.eqb _ "CALL"); [intros E; injection E as <-; auto|].
      destruct (String.eqb _ "PUT"); [intros E; injection E as <-; auto|].
      discriminate.
Qed.

Lemma add_option_fields_inv order n (asset : string) n' :
  add_option_fields order n asset = Ok n' ->
  (asset = "OPTION"%string /\
   exists (e c : string) (s : Q),
     strptime_ymd e = true /\ 0 < s /\
     (c = "C"%string \/ c = "P"%string) /\
     n' = <["right" := VStr c]>
            (<["option_type" := VStr c]>
               (<["strike" := VFloat s]> (<["expiry" := VStr e]> n)))) \/
  (asset <> "OPTION"%string /\ n' = n).
Proof.
  unfold add_option_fields. destruct (String.eqb asset "OPTION") eqn:Ha.
  2:{ intros E. injection E as <-. right. split; [|reflexivity].
      now apply String.eqb_neq. }
  apply String.eqb_eq in Ha. intros E. left. split; [exact Ha|].
  destruct (check_option_fields _ order) as [[]|]; simpl in E; [|discriminate].
  destruct (getitem order "expiry") as [ev|]; simpl in E; [|discriminate].
  destruct (strptime_ymd (py_str ev)) eqn:Hdate; simpl in E; [|discriminate].
  destruct (checked_float order "strike" positive _) as [s|] eqn:Hs;
    simpl in E; [|discriminate].
  destruct (normalize_option_type order) as [c|] eqn:Hc;
    simpl in E; [|discriminate].
  apply checked_float_inv in Hs as [Hs _]. apply positive_iff in Hs.
  apply normalize_option_type_inv in Hc as [-> | [-> | ->]];
    [discriminate | |]; injection E as <-.
  - exists (py_str ev), "C"%string, s. auto.
  - exists (py_str ev), "P"%string, s. auto.
Qed.

Lemma add_optional_lookup (fields : list string) order n k :
  add_optional fields order n !! k =
  if bool_decide (k ∈ fields) && negb (absent order k)
  then order !! k else n !! k.
Proof.
  revert n. induction fields as [|f fields IH]; intros n.
  - cbn [add_optional]. case_bool_decide as Hin; [|reflexivity].
    now apply elem_of_nil in Hin.
  - assert (Hcase : add_optional (f :: fields) order n !! k =
                    add_optional fields order
                      (if absent order f then n
                       else match order !! f with
                            | Some v => <[f := v]> n
                            | None => n
                            end) !! k).
    { cbn [add_optional]. unfold absent. now destruct (order !! f) as [[]|]. }
    rewrite Hcase, IH. clear Hcase.
    destruct (decide (k = f)) as [->|Hne].
    + rewrite (bool_decide_eq_true_2 (f ∈ f :: fields))
        by apply list_elem_of_here.
      destruct (absent order f) eqn:Hab; simpl.
      * now rewrite andb_false_r.
      * rewrite andb_true_r. unfold absent in Hab.
        destruct (order !! f) as [v|] eqn:Hv; [|discriminate].
        rewrite lookup_insert_eq. now destruct (bool_decide (f ∈ fields)).
    + assert (Hmem : bool_decide (k ∈ f :: fields) = bool_decide (k ∈ fields)).
      { apply bool_decide_ext. rewrite elem_of_cons. tauto. }
      rewrite Hmem.
      destruct (bool_decide (k ∈ fields) && negb (absent order k));
        [reflexivity|].
      destruct (absent order f); [reflexivity|].
      destruct (order !! f); [|reflexivity].
      now rewrite lookup_insert_ne by congruence.
Qed.

Lemma get_upper_inv order k (default s : string) :
  get_upper order k default = Ok s -> exists s0, s = py_upper s0.
Proof.
  unfold get_upper. destruct (order !! k) as [[| | |s1]|]; try discriminate;
    intros E; injection E as <-; eauto.
Qed.

Lemma getitem_inv order k (v : value) :
  getitem order k = Ok v -> order !! k = Some v.
Proof.
  unfold getitem. destruct (order !! k); [|discriminate].
  intros E. now injection E as ->.
Qed.

Lemma mem_true (x : string) (l : list string) : mem x l = true <-> x ∈ l.
Proof. unfold mem. apply bool_decide_eq_true. Qed.

(** The stages [validate_order] goes through when it returns. *)
Lemma validate_order_inv order n :
  validate_order order = Ok n ->
  exists (sym : value) (a : string) (q : Z) (asset t tif0 : string)
         (n1 n2 n3 n4 : gmap string value),
    order !! "symbol" = Some sym /\
    a ∈ ["BUY"; "SELL"]%string /\ (0 < q)%Z /\
    asset ∈ ["STOCK"; "OPTION"]%string /\
    t ∈ ["MKT"; "LMT"; "STP"; "STP LMT"; "TRAIL"]%string /\
    add_limit_price order
      (base_order (py_upper (py_str sym)) a q asset t (py_upper tif0)) t
      = Ok n1 /\
    add_stop_price order n1 t = Ok n2 /\
    add_trail order n2 t = Ok n3 /\
    add_option_fields order n3 asset = Ok n4 /\
    n = add_optional ["strategy_name"; "leg_group_id"; "notes"] order n4.
Proof.
  unfold validate_order, mbind, result_bind.
  destruct (check_required _ order) as [[]|]; [|discriminate].
  destruct (getitem order "action") as [av|]; [|discriminate].
  destruct (negb (mem (py_upper (py_str av)) _)) eqn:Hact; [discriminate|].
  destruct (getitem order "quantity") as [qv|]; [|discriminate].
  destruct (py_int qv) as [q|]; [|discriminate].
  destruct (q <=? 0)%Z eqn:Hq; [discriminate|].
  destruct (get_upper order "asset_type" "STOCK") as [asset|]; [|discriminate].
  destruct (negb (mem asset _)) eqn:Hasset; [discriminate|].
  destruct (getitem order "symbol") as [sym|] eqn:Hsym; [|discriminate].
  destruct (get_upper order "order_type" "MARKET") as [t0|]; [|discriminate].
  destruct (get_upper order "time_in_force" "DAY") as [tif|] eqn:Htif;
    [|discriminate].
  destruct (negb (mem (order_type_map t0) _)) eqn:Htype; [discriminate|].
  destruct (add_limit_price order _ _) as [n1|] eqn:H1; [|discriminate].
  destruct (add_stop_price order n1 _) as [n2|] eqn:H2; [|discriminate].
  destruct (add_trail order n2 _) as [n3|] eqn:H3; [|discriminate].
  destruct (add_option_fields order n3 asset) as [n4|] eqn:H4; [|discriminate].
  intros E. injection E as <-.
  apply get_upper_inv in Htif as [tif0 ->].
  apply negb_false_iff, mem_true in Hact, Hasset, Htype.
  apply Z.leb_gt in Hq. apply getitem_inv in Hsym.
  exists sym, (py_upper (py_str av)), q, asset, (order_type_map t0), tif0,
         n1, n2, n3, n4.
  repeat (split; [assumption|]). reflexivity.
Qed.

Lemma base_order_lookup (s a : string) (q : Z) (asset t tif : string) :
  let b := base_order s a q asset t tif in
  b !! "symbol" = Some (VStr s) /\ b !! "action" = Some (VStr a) /\
  b !! "quantity" = Some (VInt q) /\ b !! "asset_type" = Some (VStr asset) /\
  b !! "order_type" = Some (VStr t) /\
  b !! "time_in_force" = Some (VStr tif).
Proof. repeat split; reflexivity. Qed.

Lemma base_order_lookup_other (s a : string) (q : Z) (asset t tif : string) k :
  k ∉ ["symbol"; "action"; "quantity"; "asset_type"; "order_type";
       "time_in_force"]%string ->
  base_order s a q asset t tif !! k = None.
Proof.
  intros Hk. rewrite !not_elem_of_cons in Hk.
  destruct Hk as (? & ? & ? & ? & ? & ? & _).
  unfold base_order. simpl.
  repeat (rewrite lookup_insert_ne by congruence). apply lookup_empty.
Qed.


Ltac solve_key_neq :=
  solve [ discriminate
        | rewrite ?not_elem_of_cons; repeat split;
          first [discriminate | apply not_elem_of_nil] ].

Lemma add_limit_price_frame order n t n' k :
  add_limit_price order n t = Ok n' -> k <> "limit_price"%string ->
  n' !! k = n !! k.
Proof.
  intros E Hk. apply add_limit_price_inv in E as [(_ & x & _ & ->) | [_ ->]];
    [|reflexivity].
  now rewrite lookup_insert_ne by congruence.
Qed.

Lemma add_stop_price_frame order n t n' k :
  add_stop_price order n t = Ok n' -> k <> "stop_price"%string ->
  n' !! k = n !! k.
Proof.
  intros E Hk. apply add_stop_price_inv in E as [(_ & x & _ & ->) | [_ ->]];
    [|reflexivity].
  now rewrite lookup_insert_ne by congruence.
Qed.

Lemma ins_opt_lookup_ne (k' k : string) (o : option Q) n :
  k <> k' -> ins_opt k' o n !! k = n !! k.
Proof.
  intros Hk. destruct o; simpl; [|reflexivity].
  now rewrite lookup_insert_ne by congruence.
Qed.

Lemma add_trail_frame order n t n' k :
  add_trail order n t = Ok n' ->
  k <> "trail_percent"%string -> k <> "trail_amount"%string ->
  n' !! k = n !! k.
Proof.
  intros E Hp Ha.
  apply add_trail_inv in E as [(_ & p & a & _ & _ & _ & ->) | [_ ->]];
    [|reflexivity].
  now rewrite !ins_opt_lookup_ne.
Qed.

Lemma add_option_fields_frame order n (asset : string) n' k :
  add_option_fields order n asset = Ok n' ->
  k ∉ ["expiry"; "strike"; "option_type"; "right"]%string ->
  n' !! k = n !! k.
Proof.
  intros E Hk. rewrite !not_elem_of_cons in Hk.
  destruct Hk as (? & ? & ? & ? & _).
  apply add_option_fields_inv in E
    as [(_ & e & c & s & _ & _ & _ & ->) | [_ ->]]; [|reflexivity].
  now rewrite !lookup_insert_ne by congruence.
Qed.

Lemma add_optional_frame (fields : list string) order n k :
  k ∉ fields -> add_optional fields order n !! k = n !! k.
Proof.
  intros Hk. rewrite add_optional_lookup.
  now rewrite bool_decide_eq_false_2 by exact Hk.
Qed.



Lemma upper_ascii_idem (c : ascii) : upper_ascii (upper_ascii c) = upper_ascii c.
Proof. destruct c as [[] [] [] [] [] [] [] []]; reflexivity. Qed.

Lemma py_upper_idem (s : string) : py_upper (py_upper s) = py_upper s.
Proof.
  induction s as [|c s IH]; simpl; [reflexivity|].
  now rewrite upper_ascii_idem, IH.
Qed.

Lemma getitem_ok order k (v : value) :
  order !! k = Some v -> getitem order k = Ok v.
Proof. intros E. unfold getitem. now rewrite E. Qed.

Lemma get_upper_str order k (default s : string) :
  order !! k = Some (VStr s) -> get_upper order k default = Ok (py_upper s).
Proof. intros E. unfold get_upper. now rewrite E. Qed.

Lemma absent_str order k (s : string) :
  order !! k = Some (VStr s) -> absent order k = false.
Proof. intros E. unfold absent. now rewrite E. Qed.

Lemma absent_float order k (x : Q) :
  order !! k = Some (VFloat x) -> absent order k = false.
Proof. intros E. unfold absent. now rewrite E. Qed.

Lemma absent_none order k : order !! k = None -> absent order k = true.
Proof. intros E. unfold absent. now rewrite E. Qed.

Lemma add_limit_price_again order n b t b' :
  add_limit_price order b t = Ok b' ->
  n !! "limit_price" = b' !! "limit_price" ->
  add_limit_price n b t = Ok b'.
Proof.
  intros E Hn. apply add_limit_price_inv in E as [(Hm & x & Hx & ->) | [Hm ->]].
  - rewrite lookup_insert_eq in Hn. unfold add_limit_price. rewrite Hm.
    rewrite (absent_float _ _ _ Hn).
    rewrite (checked_float_ok n "limit_price" positive _ (VFloat x) x Hn);
      [reflexivity | reflexivity | now apply positive_iff].
  - unfold add_limit_price. now rewrite Hm.
Qed.

Lemma add_stop_price_again order n b t b' :
  add_stop_price order b t = Ok b' ->
  n !! "stop_price" = b' !! "stop_price" ->
  add_stop_price n b t = Ok b'.
Proof.
  intros E Hn. apply add_stop_price_inv in E as [(Hm & x & Hx & ->) | [Hm ->]].
  - rewrite lookup_insert_eq in Hn. unfold add_stop_price. rewrite Hm.
    rewrite (absent_float _ _ _ Hn).
    rewrite (checked_float_ok n "stop_price" positive _ (VFloat x) x Hn);
      [reflexivity | reflexivity | now apply positive_iff].
  - unfold add_stop_price. now rewrite Hm.
Qed.

Lemma percent_in_range (x : Q) :
  0 < x -> x <= 100 -> negb (Qle_bool x 0 || Py.gtb x 100) = true.
Proof.
  intros H0 H100. apply negb_true_iff, orb_false_iff. split.
  - apply not_true_iff_false. rewrite Qle_bool_iff. now apply Qlt_not_le.
  - now apply gtb_false_iff.
Qed.

Lemma add_trail_again order n b t b' :
  add_trail order b t = Ok b' ->
  b !! "trail_percent" = None -> b !! "trail_amount" = None ->
  n !! "trail_percent" = b' !! "trail_percent" ->
  n !! "trail_amount" = b' !! "trail_amount" ->
  add_trail n b t = Ok b'.
Proof.
  intros E Hbp Hba Hp Ha.
  apply add_trail_inv in E
    as [(-> & percent & amount & Hsome & Hpr & Har & ->) | [Ht ->]].
  - unfold add_trail. simpl String.eqb. cbv iota.
    destruct percent as [p|], amount as [a|]; simpl in Hp, Ha.
    + rewrite lookup_insert_ne in Hp by discriminate.
      rewrite lookup_insert_eq in Hp, Ha.
      rewrite (absent_float _ _ _ Hp), (absent_float _ _ _ Ha). simpl.
      destruct (Hpr p eq_refl) as [Hp0 Hp100].
      rewrite (checked_float_ok n "trail_percent" _ _ (VFloat p) p Hp eq_refl)
        by now apply percent_in_range.
      simpl.
      rewrite (checked_float_ok n "trail_amount" _ _ (VFloat a) a Ha eq_refl)
        by (apply positive_iff; now apply Har).
      reflexivity.
    + rewrite lookup_insert_eq in Hp.
      rewrite lookup_insert_ne, Hba in Ha by discriminate.
      rewrite (absent_float _ _ _ Hp), (absent_none _ _ Ha). simpl.
      destruct (Hpr p eq_refl) as [Hp0 Hp100].
      rewrite (checked_float_ok n "trail_percent" _ _ (VFloat p) p Hp eq_refl)
        by now apply percent_in_range.
      reflexivity.
    + rewrite lookup_insert_ne, Hbp in Hp by discriminate.
      rewrite lookup_insert_eq in Ha.
      rewrite (absent_none _ _ Hp), (absent_float _ _ _ Ha). simpl.
      rewrite (checked_float_ok n "trail_amount" _ _ (VFloat a) a Ha eq_refl)
        by (apply positive_iff; now apply Har).
      reflexivity.
    + destruct Hsome as [[? Hs] | [? Hs]]; discriminate.
  - unfold add_trail. apply String.eqb_neq in Ht. now rewrite Ht.
Qed.

Lemma add_option_fields_again order n b (asset : string) b' :
  add_option_fields order b asset = Ok b' ->
  (forall k, k ∈ ["expiry"; "strike"; "option_type"; "right"]%string ->
             n !! k = b' !! k) ->
  add_option_fields n b asset = Ok b'.
Proof.
  intros E Hn.
  apply add_option_fields_inv in E
    as [(-> & e & c & s & He & Hs & Hc & ->) | [Ha ->]].
  - assert (Hexp : n !! "expiry" = Some (VStr e)).
    { rewrite Hn by (rewrite !elem_of_cons; auto 8).
      now repeat (rewrite lookup_insert_ne by discriminate);
        rewrite ?lookup_insert_eq. }
    assert (Hstr : n !! "strike" = Some (VFloat s)).
    { rewrite Hn by (rewrite !elem_of_cons; auto 8).
      repeat (rewrite lookup_insert_ne by discriminate).
      now rewrite lookup_insert_eq. }
    assert (Hopt : n !! "option_type" = Some (VStr c)).
    { rewrite Hn by (rewrite !elem_of_cons; auto 8).
      repeat (rewrite lookup_insert_ne by discriminate).
      now rewrite lookup_insert_eq. }
    unfold add_option_fields. simpl String.eqb. cbv iota.
    cbn [check_option_fields].
    rewrite (absent_str _ _ _ Hexp), (absent_float _ _ _ Hstr),
      (absent_str _ _ _ Hopt).
    rewrite (getitem_ok _ _ _ Hexp). simpl. rewrite He. simpl.
    rewrite (checked_float_ok n "strike" _ _ (VFloat s) s Hstr eq_refl)
      by now apply positive_iff.
    simpl. unfold normalize_option_type, contains.
    rewrite Hopt. rewrite bool_decide_eq_true_2 by eauto.
    rewrite (getitem_ok _ _ _ Hopt).
    destruct Hc as [-> | ->]; reflexivity.
  - unfold add_option_fields. apply String.eqb_neq in Ha. now rewrite Ha.
Qed.

Lemma py_upper_fixed (s : string) (l : list string) :
  s ∈ l -> Forall (fun x => py_upper x = x) l -> py_upper s = s.
Proof. intros Hin Hall. rewrite Forall_forall in Hall. now apply Hall. Qed.

(** X26: [validate_order] is idempotent: validating the order it returned
    succeeds and returns that same order, so an order that went through
    validation once may be validated again without change. *)
Theorem validate_order_idempotent order n :
  validate_order order = Ok n -> validate_order n = Ok n.
Proof.
  intros Hv.
  destruct (validate_order_inv _ _ Hv)
    as (sym & a & q & asset & t & tif0 & n1 & n2 & n3 & n4 &
        Hsym & Ha & Hq & Hasset & Ht & H1 & H2 & H3 & H4 & Hn).
  set (b := base_order (py_upper (py_str sym)) a q asset t (py_upper tif0)) in *.
  (* what the returned order holds under the keys the stages write *)
  assert (Hframe : forall k,
             k ∉ ["strategy_name"; "leg_group_id"; "notes"]%string ->
             n !! k = n4 !! k).
  { intros k Hk. rewrite Hn. now apply add_optional_frame. }
  assert (Hbase : forall k,
             k ∈ ["symbol"; "action"; "quantity"; "asset_type"; "order_type";
                  "time_in_force"]%string ->
             n !! k = b !! k).
  { intros k Hk. rewrite !elem_of_cons in Hk.
    rewrite Hframe
      by (destruct Hk as [->|[->|[->|[->|[->|[->|Hk]]]]]];
          [solve_key_neq.. | now apply elem_of_nil in Hk]).
    rewrite (add_option_fields_frame _ _ _ _ k H4)
      by (destruct Hk as [->|[->|[->|[->|[->|[->|Hk]]]]]];
          [solve_key_neq.. | now apply elem_of_nil in Hk]).
    rewrite (add_trail_frame _ _ _ _ k H3)
      by (destruct Hk as [->|[->|[->|[->|[->|[->|Hk]]]]]];
          [discriminate.. | now apply elem_of_nil in Hk]).
    rewrite (add_stop_price_frame _ _ _ _ k H2)
      by (destruct Hk as [->|[->|[->|[->|[->|[->|Hk]]]]]];
          [discriminate.. | now apply elem_of_nil in Hk]).
    rewrite (add_limit_price_frame _ _ _ _ k H1)
      by (destruct Hk as [->|[->|[->|[->|[->|[->|Hk]]]]]];
          [discriminate.. | now apply elem_of_nil in Hk]).
    reflexivity. }
  destruct (base_order_lookup (py_upper (py_str sym)) a q asset t (py_upper tif0))
    as (Bsym & Bact & Bqty & Basset & Btype & Btif).
  fold b in Bsym, Bact, Bqty, Basset, Btype, Btif.
  assert (Nsym : n !! "symbol" = Some (VStr (py_upper (py_str sym))))
    by (rewrite Hbase by (rewrite !elem_of_cons; auto 8); exact Bsym).
  assert (Nact : n !! "action" = Some (VStr a))
    by (rewrite Hbase by (rewrite !elem_of_cons; auto 8); exact Bact).
  assert (Nqty : n !! "quantity" = Some (VInt q))
    by (rewrite Hbase by (rewrite !elem_of_cons; auto 8); exact Bqty).
  assert (Nasset : n !! "asset_type" = Some (VStr asset))
    by (rewrite Hbase by (rewrite !elem_of_cons; auto 8); exact Basset).
  assert (Ntype : n !! "order_type" = Some (VStr t))
    by (rewrite Hbase by (rewrite !elem_of_cons; auto 8); exact Btype).
  assert (Ntif : n !! "time_in_force" = Some (VStr (py_upper tif0)))
    by (rewrite Hbase by (rewrite !elem_of_cons; auto 8); exact Btif).
  (* the stages, run on the returned order *)
  assert (N1 : add_limit_price n b t = Ok n1).
  { apply (add_limit_price_again order); [exact H1|].
    rewrite Hframe by solve_key_neq.
    rewrite (add_option_fields_frame _ _ _ _ _ H4) by solve_key_neq.
    rewrite (add_trail_frame _ _ _ _ _ H3) by discriminate.
    now rewrite (add_stop_price_frame _ _ _ _ _ H2) by discriminate. }
  assert (N2 : add_stop_price n n1 t = Ok n2).
  { apply (add_stop_price_again order); [exact H2|].
    rewrite Hframe by solve_key_neq.
    rewrite (add_option_fields_frame _ _ _ _ _ H4) by solve_key_neq.
    now rewrite (add_trail_frame _ _ _ _ _ H3) by discriminate. }
  assert (N3 : add_trail n n2 t = Ok n3).
  { apply (add_trail_again order); [exact H3| | | |].
    - rewrite (add_stop_price_frame _ _ _ _ _ H2) by discriminate.
      rewrite (add_limit_price_frame _ _ _ _ _ H1) by discriminate.
      apply base_order_lookup_other. solve_key_neq.
    - rewrite (add_stop_price_frame _ _ _ _ _ H2) by discriminate.
      rewrite (add_limit_price_frame _ _ _ _ _ H1) by discriminate.
      apply base_order_lookup_other. solve_key_neq.
    - rewrite Hframe by solve_key_neq.
      now rewrite (add_option_fields_frame _ _ _ _ _ H4) by solve_key_neq.
    - rewrite Hframe by solve_key_neq.
      now rewrite (add_option_fields_frame _ _ _ _ _ H4) by solve_key_neq. }
  assert (N4 : add_option_fields n n3 asset = Ok n4).
  { apply (add_option_fields_again order); [exact H4|].
    intros k Hk. apply Hframe. rewrite !elem_of_cons in Hk.
    destruct Hk as [->|[->|[->|[->|Hk]]]];
      [solve_key_neq.. | now apply elem_of_nil in Hk]. }
  (* the optional fields are copied as they are *)
  assert (N5 : add_optional ["strategy_name"; "leg_group_id"; "notes"] n n4 = n).
  { apply map_eq. intros k. rewrite add_optional_lookup.
    destruct (bool_decide (k ∈ ["strategy_name"; "leg_group_id"; "notes"]%string))
      eqn:Hk; simpl.
    - destruct (absent n k) eqn:Habs; simpl; [|reflexivity].
      rewrite Hn, add_optional_lookup, Hk. simpl.
      destruct (absent order k) eqn:Habs'; simpl; [reflexivity|].
      exfalso. rewrite Hn in Habs. unfold absent in Habs.
      rewrite add_optional_lookup, Hk, Habs' in Habs. simpl in Habs.
      unfold absent in Habs'. rewrite Habs in Habs'. discriminate.
    - symmetry. apply Hframe. now apply bool_decide_eq_false in Hk. }
  (* the fixed points of the normalisations *)
  assert (Ua : py_upper a = a).
  { apply (py_upper_fixed _ _ Ha). repeat constructor. }
  assert (Uasset : py_upper asset = asset).
  { apply (py_upper_fixed _ _ Hasset). repeat constructor. }
  assert (Ut : py_upper t = t).
  { apply (py_upper_fixed _ _ Ht). repeat constructor. }
  assert (Mt : order_type_map t = t).
  { rewrite !elem_of_cons in Ht.
    destruct Ht as [->|[->|[->|[->|[->|Ht]]]]];
      [reflexivity.. | now apply elem_of_nil in Ht]. }
  unfold validate_order.
  cbn [check_required].
  rewrite (absent_str _ _ _ Nsym), (absent_str _ _ _ Nact).
  rewrite (absent_false _ _ _ Nqty) by discriminate.
  cbn [mbind result_bind].
  rewrite (getitem_ok _ _ _ Nact). cbn [mbind result_bind py_str].
  rewrite Ua, (proj2 (mem_true a _) Ha). cbn [negb].
  rewrite (getitem_ok _ _ _ Nqty). cbn [mbind result_bind py_int].
  rewrite (proj2 (Z.leb_gt q 0) Hq). cbn [mbind result_bind].
  rewrite (get_upper_str _ _ _ _ Nasset), Uasset. cbn [mbind result_bind].
  rewrite (proj2 (mem_true asset _) Hasset). cbn [negb].
  rewrite (getitem_ok _ _ _ Nsym). cbn [mbind result_bind py_str].
  rewrite py_upper_idem.
  rewrite (get_upper_str _ _ _ _ Ntype), Ut. cbn [mbind result_bind].
  rewrite (get_upper_str _ _ _ _ Ntif), py_upper_idem. cbn [mbind result_bind].
  cbv zeta. rewrite Mt, (proj2 (mem_true t _) Ht). cbn [negb].
  fold (base_order (py_upper (py_str sym)) a q asset t (py_upper tif0)).
  fold b.
  rewrite N1. cbn [mbind result_bind].
  rewrite N2. cbn [mbind result_bind].
  rewrite N3. cbn [mbind result_bind].
  rewrite N4. cbn [mbind result_bind].
  now rewrite N5.
Qed.

End ValidatorStages.

Section ValidatorStagesExamples.
Import Validators Examples.


Lemma validate_order_idempotent_witness :
  @validate_order runtime_numeric normalized_limit = Ok normalized_limit.
Proof.
  apply (@validate_order_idempotent runtime_numeric order_limit).
  vm_compute. reflexivity.
Defined.

End ValidatorStagesExamples.
